(** * musicpolice dashboard: verification of the client-side orchestration layer

    Shallow embedding of the stateful parts of [static/dashboard.js]:
    the upload queue, the task-status poller, the analysis table
    (search and pagination) and the global audio player.

    Conventions of the embedding.
    - Module-level [let] variables of the script become fields of a state
      record; every function of the script becomes a state transformer.
    - JavaScript strings are [string]s whose characters are the code units
      0..255 (Latin-1).  [toLowerCase], [trim], [includes], [endsWith]
      follow ECMAScript on that range.
    - Calls into the page (notifications, timers, rendering) are recorded
      in the state, in call order. *)

From Stdlib Require Import String Ascii List ZArith NArith QArith Qround Qabs Lia Lqa Bool DecimalString DecimalN.
From stdpp Require Import base list.
Import ListNotations.

Local Open Scope string_scope.
Local Open Scope list_scope.

(** ** ECMAScript string primitives used by the script *)

Module Js.

Definition code (c : ascii) : N := N_of_ascii c.

(** [String.prototype.toLowerCase] on one Latin-1 code unit:
    A..Z and the accented capitals U+00C0..U+00DE (except the
    multiplication sign U+00D7) move 32 places up. *)
Definition lower_char (c : ascii) : ascii :=
  let n := code c in
  if ((65 <=? n) && (n <=? 90) ||
      (192 <=? n) && (n <=? 222) && negb (n =? 215))%N
  then ascii_of_N (n + 32) else c.

Fixpoint toLowerCase (s : string) : string :=
  match s with
  | EmptyString => EmptyString
  | String c s' => String (lower_char c) (toLowerCase s')
  end.

(** White space removed by [trim]: TAB, LF, VT, FF, CR, SPACE, NBSP. *)
Definition is_ws (c : ascii) : bool :=
  let n := code c in
  ((9 <=? n) && (n <=? 13) || (n =? 32) || (n =? 160))%N.

Fixpoint trimStart (s : string) : string :=
  match s with
  | EmptyString => EmptyString
  | String c s' => if is_ws c then trimStart s' else s
  end.

Fixpoint trimEnd (s : string) : string :=
  match s with
  | EmptyString => EmptyString
  | String c s' =>
      match trimEnd s' with
      | EmptyString => if is_ws c then EmptyString else String c EmptyString
      | r => String c r
      end
  end.

Definition trim (s : string) : string := trimEnd (trimStart s).

(** Truthiness of a string: non-empty. *)
Definition truthy (s : string) : bool :=
  match s with EmptyString => false | _ => true end.

Fixpoint startsWith (s t : string) : bool :=
  match t, s with
  | EmptyString, _ => true
  | String _ _, EmptyString => false
  | String b t', String a s' => Ascii.eqb a b && startsWith s' t'
  end.

Fixpoint includes (s t : string) : bool :=
  startsWith s t ||
  match s with
  | EmptyString => false
  | String _ s' => includes s' t
  end.

Fixpoint endsWith (s t : string) : bool :=
  String.eqb s t ||
  match s with
  | EmptyString => false
  | String _ s' => endsWith s' t
  end.

(** [Number.prototype.toString] on a non-negative integer that a number
    holds exactly (below [2 ^ 53]): its decimal digits.  Larger numbers,
    which print rounded and from 1e21 on in exponent notation, are not
    covered. *)
Definition toString (n : N) : string :=
  NilEmpty.string_of_uint (N.to_uint n).

Definition is_digit (c : ascii) : bool :=
  let n := code c in ((48 <=? n) && (n <=? 57))%N.

Fixpoint chars (s : string) : list ascii :=
  match s with
  | EmptyString => []
  | String c s' => c :: chars s'
  end.

End Js.

(** ** Numbers

    A JavaScript number is an IEEE 754 binary64 value.  The finite ones are
    rationals; [None] stands for a result that is not finite.  Every
    arithmetic operation rounds its exact result to the nearest binary64
    value, ties to the even mantissa. *)

Module Double.

Local Open Scope Q_scope.

(** [2 ^ e] for any integer exponent. *)
Definition pow2 (e : Z) : Q :=
  if (0 <=? e)%Z then inject_Z (2 ^ e) else 1 / inject_Z (2 ^ (- e)).

(** The exponent [e] with [2 ^ e <= a < 2 ^ (e + 1)], for positive [a]. *)
Definition ilog2 (a : Q) : Z :=
  let k := (Z.log2 (Qnum a) - Z.log2 (Zpos (Qden a)))%Z in
  if Qle_bool (pow2 k) a then k else (k - 1)%Z.

(** Nearest integer, ties to even. *)
Definition rne (q : Q) : Z :=
  let f := Qfloor q in
  match Qcompare (q - inject_Z f) (1 # 2) with
  | Lt => f
  | Gt => (f + 1)%Z
  | Eq => if Z.even f then f else (f + 1)%Z
  end.

(** The binary64 value of an exact result: 53 significant bits, exponents
    from -1022 (below, the spacing stays [2 ^ -1074]), overflow from
    [2 ^ 1024] on. *)
Definition round (q : Q) : option Q :=
  if Qeq_bool q 0 then Some 0
  else
    let a := Qabs q in
    let e := Z.max (ilog2 a) (-1022) in
    let ulp := pow2 (e - 52) in
    let r := inject_Z (rne (a / ulp)) * ulp in
    if Qle_bool (pow2 1024) r then None
    else Some (Qred (if Qle_bool 0 q then r else - r)).

(** [a / b] for a divisor that is not 0, and [a * b]. *)
Definition div (a b : Q) : option Q := round (a / b).

Definition mul (a b : Q) : option Q := round (a * b).

End Double.

(** ** Notifications and timers shared by all components *)

Inductive ntype := NSuccess | NError | NWarning | NInfo.

(** One call [showNotification(message, type, duration)]; the defaults of
    the script are [type = 'info'] and [duration = 3000]. *)
Record notification := Notify {
  n_message : string;
  n_type : ntype;
  n_duration : N
}.

Definition showNotification (msg : string) (t : ntype) (d : N)
  (log : list notification) : list notification :=
  log ++ [Notify msg t d].

Definition default_duration : N := 3000.

(** ** Upload queue *)

Module UploadQueue.

Record file := File { name : string; size : N }.

(** Markup of one child of [#queue-list].  [createQueueItem] produces
    [ItemQueued]; the other shapes are written by the task poller. *)
Inductive item_html :=
| ItemQueued (fname : string) (fsize : N)
| ItemProcessing (fname : string)
| ItemCompleted (fname : string)
| ItemFailed (fname : string)
| ItemFailedWith (fname msg : string)
| ItemTimeout (fname : string)
| ItemError (fname : string).

Inductive display := DisplayNone | DisplayBlock | DisplayUnset.

(** [queueList] and [uploadQueue] are the results of
    [document.getElementById]: [None] when the element is not in the page. *)
Record state := State {
  queueList : option (list item_html);
  uploadQueue : option display;
  uploadedFiles : list file;
  notifications : list notification
}.

Definition validTypes : list string :=
  [".mp3"; ".wav"; ".flac"; ".m4a"; ".ogg"].

Definition isValidAudioFile (f : file) : bool :=
  existsb (fun type => Js.endsWith (Js.toLowerCase (name f)) type) validTypes.

Definition createQueueItem (f : file) : item_html :=
  ItemQueued (name f) (size f).

Definition clearUploadQueue (st : state) : state :=
  {| queueList := match queueList st with Some _ => Some [] | None => None end;
     uploadQueue := match uploadQueue st with
                    | Some _ => Some DisplayNone | None => None end;
     uploadedFiles := [];
     notifications := notifications st |}.

(** Body of the [files.forEach] callback, with the children of
    [#queue-list] passed explicitly. *)
Definition addOne (acc : list item_html * list file * list notification)
  (f : file) : list item_html * list file * list notification :=
  let '(items, stored, notes) := acc in
  if isValidAudioFile f
  then (items ++ [createQueueItem f], stored ++ [f], notes)
  else (items, stored,
        showNotification ("Invalid file type: " ++ name f) NError
          default_duration notes).

Definition addFilesToQueue (files : list file) (st : state) : state :=
  match queueList st, uploadQueue st with
  | Some items, Some disp =>
      let '(items', stored', notes') :=
        fold_left addOne files (items, uploadedFiles st, notifications st) in
      {| queueList := Some items';
         uploadQueue := Some (if (0 <? length items')%nat
                              then DisplayBlock else disp);
         uploadedFiles := stored';
         notifications := notes' |}
  | _, _ => st
  end.

(** The rejection message shown for one file. *)
Definition rejection (f : file) : notification :=
  Notify ("Invalid file type: " ++ name f) NError default_duration.

(** A file name carries an allowed extension when, lowercased, it is some
    prefix followed by one of the five extensions. *)
Definition HasAllowedExtension (fname : string) : Prop :=
  exists ext pre,
    In ext [".mp3"; ".wav"; ".flac"; ".m4a"; ".ogg"] /\
    Js.toLowerCase fname = (pre ++ ext)%string.

Definition mounted (st : state) : Prop :=
  is_Some (queueList st) /\ is_Some (uploadQueue st).

Definition page : state :=
  {| queueList := Some []; uploadQueue := Some DisplayNone;
     uploadedFiles := []; notifications := [] |}.

Definition invalid (f : file) : bool := negb (isValidAudioFile f).

Definition sample_files : list file :=
  [File "a.mp3" 10; File "notes.txt" 3; File "C.WAV" 7; File "mp3" 1].

End UploadQueue.

(** ** Task-status poller ([pollTaskStatus]) *)

Module TaskTracker.

Import UploadQueue.

(** What one round trip [fetch('/api/tasks/' + taskId)] followed by
    [response.json()] can produce. *)
Inductive response :=
| FetchRejected                     (* fetch rejects: transport failure *)
| HttpNotOk (code : N)              (* a response arrives, response.ok is false *)
| BodyNotJson                       (* response.ok, but response.json() rejects
                                       or yields no object *)
| Body (status : option string).    (* parsed body and its [status] field *)

Inductive action := APoll | AClearUploadQueue.

(** One pending [setTimeout(action, delay)]. *)
Record timer := Timer { delay : N; act : action }.

(** The closure state of one [pollTaskStatus(taskId, item, fileName)] call
    together with what it has written to the page so far. *)
Record tracker := Tracker {
  fileName : string;
  attempts : nat;
  item : item_html;
  timers : list timer;
  notes : list notification;
  console : list string
}.

Definition maxAttempts : nat := 30.

Definition set_item (v : item_html) (t : tracker) : tracker :=
  {| fileName := fileName t; attempts := attempts t; item := v;
     timers := timers t; notes := notes t; console := console t |}.

Definition notify (msg : string) (k : ntype) (t : tracker) : tracker :=
  {| fileName := fileName t; attempts := attempts t; item := item t;
     timers := timers t;
     notes := showNotification msg k default_duration (notes t);
     console := console t |}.

Definition setTimeout (a : action) (d : N) (t : tracker) : tracker :=
  {| fileName := fileName t; attempts := attempts t; item := item t;
     timers := timers t ++ [Timer d a]; notes := notes t;
     console := console t |}.

Definition incr_attempts (t : tracker) : tracker :=
  {| fileName := fileName t; attempts := S (attempts t); item := item t;
     timers := timers t; notes := notes t; console := console t |}.

Definition console_error (msg : string) (t : tracker) : tracker :=
  {| fileName := fileName t; attempts := attempts t; item := item t;
     timers := timers t; notes := notes t;
     console := console t ++ [msg] |}.

(** [status.status === s]; the field may be missing from the body. *)
Definition status_is (st : option string) (s : string) : bool :=
  match st with
  | Some x => String.eqb x s
  | None => false
  end.

(** Body of the [poll] closure, run on the outcome of its [fetch]. *)
Definition poll (t : tracker) (r : response) : tracker :=
  match r with
  | Body st =>
      if status_is st "completed" then
        setTimeout AClearUploadQueue 2000
          (notify ("Analysis completed for " ++ fileName t) NSuccess
             (set_item (ItemCompleted (fileName t)) t))
      else if status_is st "failed" then
        notify ("Analysis failed for " ++ fileName t) NError
          (set_item (ItemFailed (fileName t)) t)
      else if status_is st "running" && (attempts t <? maxAttempts)%nat then
        setTimeout APoll 1000 (incr_attempts t)
      else
        set_item (ItemTimeout (fileName t)) t
  | HttpNotOk _ => t
  | FetchRejected | BodyNotJson =>
      set_item (ItemError (fileName t))
        (console_error "Error polling task status:" t)
  end.

Definition is_poll (tm : timer) : bool :=
  match act tm with APoll => true | AClearUploadQueue => false end.

(** A tracker is still polling while a [setTimeout(poll, _)] is pending. *)
Definition polling (t : tracker) : bool := existsb is_poll (timers t).

Fixpoint remove_poll (l : list timer) : list timer :=
  match l with
  | [] => []
  | tm :: l' => if is_poll tm then l' else tm :: remove_poll l'
  end.

(** The pending poll timer fires: it leaves the timer list. *)
Definition fire_poll (t : tracker) : tracker :=
  {| fileName := fileName t; attempts := attempts t; item := item t;
     timers := remove_poll (timers t); notes := notes t;
     console := console t |}.

(** Later polls: each response is consumed by the next scheduled poll;
    once no poll is scheduled the remaining responses are never asked for. *)
Fixpoint run (t : tracker) (rs : list response) : tracker :=
  match rs with
  | [] => t
  | r :: rs' => if polling t then run (poll (fire_poll t) r) rs' else t
  end.

(** State on entry: [startAnalysis] has just written the
    "Processing..." markup into the item. *)
Definition start (fname : string) : tracker :=
  {| fileName := fname; attempts := 0; item := ItemProcessing fname;
     timers := []; notes := []; console := [] |}.

(** [pollTaskStatus]: [attempts = 0], then [poll()] is called directly;
    [rs] are the outcomes of the successive fetches. *)
Definition pollTaskStatus (fname : string) (rs : list response) : tracker :=
  match rs with
  | [] => start fname
  | r :: rs' => run (poll (start fname) r) rs'
  end.

Inductive status := Processing | Completed | Failed | TimedOut | Errored.

(** The status a queue item shows. *)
Definition shown (t : tracker) : option status :=
  match item t with
  | ItemProcessing _ => Some Processing
  | ItemCompleted _ => Some Completed
  | ItemFailed _ | ItemFailedWith _ _ => Some Failed
  | ItemTimeout _ => Some TimedOut
  | ItemError _ => Some Errored
  | ItemQueued _ _ => None
  end.

Definition running : response := Body (Some "running").
Definition completed : response := Body (Some "completed").
Definition failed : response := Body (Some "failed").

(** Tracker states met along a run, for a file [fname]. *)

(** Still processing after [k] re-polls were scheduled, one pending. *)
Definition waiting (fname : string) (k : nat) : tracker :=
  {| fileName := fname; attempts := k; item := ItemProcessing fname;
     timers := [Timer 1000 APoll]; notes := []; console := [] |}.

Definition timed_out (fname : string) : tracker :=
  {| fileName := fname; attempts := maxAttempts; item := ItemTimeout fname;
     timers := []; notes := []; console := [] |}.

Definition completed_after (fname : string) (k : nat) : tracker :=
  {| fileName := fname; attempts := k; item := ItemCompleted fname;
     timers := [Timer 2000 AClearUploadQueue];
     notes := [Notify ("Analysis completed for " ++ fname) NSuccess 3000];
     console := [] |}.

Definition failed_after (fname : string) (k : nat) : tracker :=
  {| fileName := fname; attempts := k; item := ItemFailed fname;
     timers := [];
     notes := [Notify ("Analysis failed for " ++ fname) NError 3000];
     console := [] |}.

End TaskTracker.

(** ** Analysis table: search and pagination *)

Module ResultList.

(** The fields of an analysis record that search and pagination read. *)
Record analysis := Analysis { id : N; filename : option string }.

Inductive render :=
| DisplayAnalyses (rows : list analysis)        (* displayAnalyses(rows) *)
| UpdatePagination (totalItems : nat) (page : Z) (* updatePagination(n) *)
| HidePagination.

Inductive count_label :=
| CountAll (n : nat)                 (* "n analyses" *)
| CountMatching (k n : nat).         (* "k of n analyses" *)

Record state := State {
  allAnalyses : list analysis;
  filteredAnalyses : list analysis;
  currentPage : Z;
  isShowingAll : bool;
  rendered : list render;
  analysisCount : option count_label;
  searchClearShown : bool;
  notifications : list notification
}.

Definition itemsPerPage : Z := 10.

Definition init : state :=
  {| allAnalyses := []; filteredAnalyses := []; currentPage := 1;
     isShowingAll := false; rendered := []; analysisCount := None;
     searchClearShown := false; notifications := [] |}.

(** [Array.prototype.slice(start, end)], negative indices counting from
    the end. *)
Definition slice {A} (start stop : Z) (l : list A) : list A :=
  let len := Z.of_nat (length l) in
  let k := if (start <? 0)%Z then Z.max (len + start) 0 else Z.min start len in
  let e := if (stop <? 0)%Z then Z.max (len + stop) 0 else Z.min stop len in
  firstn (Z.to_nat (e - k)) (skipn (Z.to_nat k) l).

(** [Math.ceil(a / b)] for integers [a], [b > 0]. *)
Definition ceil_div (a b : Z) : Z := (- ((- a) / b))%Z.

Definition totalPagesOf (totalItems : nat) : Z :=
  ceil_div (Z.of_nat totalItems) itemsPerPage.

Definition displayAnalysesWithPagination (page : Z) (analyses : list analysis)
  : list render :=
  let startIndex := ((page - 1) * itemsPerPage)%Z in
  let endIndex := (startIndex + itemsPerPage)%Z in
  [DisplayAnalyses (slice startIndex endIndex analyses);
   UpdatePagination (length analyses) page].

Definition updateAnalysisTable (analyses : list analysis) (s : state) : state :=
  {| allAnalyses := analyses;
     filteredAnalyses := analyses;
     currentPage := 1;
     isShowingAll := isShowingAll s;
     rendered := rendered s ++
       (if negb (isShowingAll s)
        then [DisplayAnalyses (slice 0 5 analyses)]
        else displayAnalysesWithPagination 1 analyses);
     analysisCount := Some (CountAll (length analyses));
     searchClearShown := searchClearShown s;
     notifications := notifications s |}.

(** The predicate passed to [allAnalyses.filter] in [performSearch]. *)
Definition matches (searchTerm : string) (a : analysis) : bool :=
  let fname :=
    match filename a with
    | Some f => if Js.truthy f then Js.toLowerCase f else EmptyString
    | None => EmptyString
    end in
  let searchLower := Js.toLowerCase searchTerm in
  Js.includes fname searchLower || Js.includes (Js.toString (id a)) searchLower.

Definition dquote : string := String (ascii_of_nat 34) EmptyString.

Definition performSearch (searchTerm : string) (s : state) : state :=
  let has_term := Js.truthy (Js.trim searchTerm) in
  let filtered :=
    if negb has_term then allAnalyses s
    else List.filter (matches searchTerm) (allAnalyses s) in
  let found := N.of_nat (length filtered) in
  {| allAnalyses := allAnalyses s;
     filteredAnalyses := filtered;
     currentPage := 1;
     isShowingAll := isShowingAll s;
     rendered := rendered s ++
       (if isShowingAll s
        then displayAnalysesWithPagination 1 filtered
        else [DisplayAnalyses (slice 0 5 filtered)]);
     analysisCount :=
       Some (if has_term
             then CountMatching (length filtered) (length (allAnalyses s))
             else CountAll (length (allAnalyses s)));
     searchClearShown := Js.truthy searchTerm;
     notifications :=
       if has_term && (length filtered =? 0)%nat then
         showNotification
           ("No analyses found matching " ++ dquote ++ searchTerm ++ dquote)
           NWarning 3000 (notifications s)
       else if has_term && (0 <? length filtered)%nat then
         showNotification
           ("Found " ++ Js.toString found ++ " analyses matching "
              ++ dquote ++ searchTerm ++ dquote)
           NSuccess 2000 (notifications s)
       else notifications s |}.

Definition showAllAnalyses (s : state) : state :=
  {| allAnalyses := allAnalyses s;
     filteredAnalyses := filteredAnalyses s;
     currentPage := 1;
     isShowingAll := true;
     rendered := rendered s ++
       displayAnalysesWithPagination 1 (filteredAnalyses s);
     analysisCount := analysisCount s;
     searchClearShown := searchClearShown s;
     notifications :=
       showNotification "Showing all analyses with pagination" NInfo 2000
         (notifications s) |}.

Definition showRecentAnalyses (s : state) : state :=
  {| allAnalyses := allAnalyses s;
     filteredAnalyses := filteredAnalyses s;
     currentPage := 1;
     isShowingAll := false;
     rendered := rendered s ++
       [HidePagination; DisplayAnalyses (slice 0 5 (filteredAnalyses s))];
     analysisCount := analysisCount s;
     searchClearShown := searchClearShown s;
     notifications :=
       showNotification "Showing recent analyses only" NInfo 2000
         (notifications s) |}.

Definition totalPages (s : state) : Z :=
  totalPagesOf (length (filteredAnalyses s)).

Definition changePage (direction : Z) (s : state) : state :=
  let newPage := (currentPage s + direction)%Z in
  if ((1 <=? newPage) && (newPage <=? totalPages s))%Z then
    {| allAnalyses := allAnalyses s;
       filteredAnalyses := filteredAnalyses s;
       currentPage := newPage;
       isShowingAll := isShowingAll s;
       rendered := rendered s ++
         displayAnalysesWithPagination newPage (filteredAnalyses s);
       analysisCount := analysisCount s;
       searchClearShown := searchClearShown s;
       notifications := notifications s |}
  else s.

(** The calls the page can make on the table. *)
Inductive op :=
| Hydrate (analyses : list analysis)
| Search (term : string)
| ShowAll
| ShowRecent
| ChangePage (direction : Z).

Definition apply (s : state) (o : op) : state :=
  match o with
  | Hydrate l => updateAnalysisTable l s
  | Search t => performSearch t s
  | ShowAll => showAllAnalyses s
  | ShowRecent => showRecentAnalyses s
  | ChangePage d => changePage d s
  end.

Definition run (ops : list op) : state := fold_left apply ops init.

(** The page-bounds invariant, with the empty table pinned to page 1. *)
Definition page_ok (s : state) : Prop :=
  (1 <= currentPage s <= Z.max 1 (totalPages s))%Z.

(** The search predicate in the words of the specification. *)

Definition Substring (t s : string) : Prop :=
  exists pre post, s = (pre ++ t ++ post)%string.

Definition EqualIgnoringCase (a b : string) : Prop :=
  Js.toLowerCase a = Js.toLowerCase b.

Definition ContainsIgnoringCase (s t : string) : Prop :=
  exists pre mid post,
    s = (pre ++ mid ++ post)%string /\ EqualIgnoringCase mid t.

Definition SpecMatch (term : string) (a : analysis) : Prop :=
  (exists f, filename a = Some f /\ ContainsIgnoringCase f term) \/
  Substring term (Js.toString (id a)).

Definition WhitespaceOnly (s : string) : Prop :=
  Forall (fun c => Js.is_ws c = true) (Js.chars s).

(** Sample data: the two records of the specification's scenario, and
    [n] numbered records. *)
Definition two_records : list analysis :=
  [Analysis 1 (Some "a.mp3"); Analysis 2 (Some "b.wav")].

Definition numbered (n : nat) : list analysis :=
  map (fun i => Analysis (N.of_nat i) (Some "track.mp3")) (seq 1 n).

End ResultList.

(** ** Global audio player *)

Module AudioPlayer.

(** An [Audio] element.  [duration = None] is the [NaN] an element reports
    until its metadata has loaded (the duration of a file is finite).
    Times are numbers, held as the rationals they are; what the script
    computes from them is rounded as in [Double]. *)
Record audio := Audio {
  src : N;                       (* /api/analyses/<src>/audio *)
  paused : bool;
  currentTime : Q;
  duration : option Q
}.

Inductive icon := FaPlay | FaPause.

(** A [.play-button] of the table.  [onclick] is the number matched by
    [/playAudio\((\d+)\)/] in its onclick attribute, [None] when the
    pattern does not match. *)
Record button := Button {
  onclick : option N;
  playing : bool;                (* class 'playing' *)
  btn_icon : icon;
  title : string
}.

Inductive bstate := SPlaying | SPaused | SStopped.

Inductive effect :=
| EPause (h : nat)
| EPlay (h : nat)
| ENewAudio (h : nat) (analysisId : N)
| EUpdateButtons (analysisId : option N) (st : bstate)
| EShowPlayer (analysisId : N)
| EHidePlayer
| EWatchdog (h : nat) (ms : N)
| ESeek (h : nat) (t : Q).

(** [audios] holds every [Audio] object created so far; an object is
    referred to by its index.  [currentAudio] and [currentAnalysisId] are
    the two module variables ([None] for [null]). *)
Record state := State {
  currentAudio : option nat;
  currentAnalysisId : option N;
  audios : list audio;
  buttons : list button;
  playerShown : bool;
  nowPlaying : option N;
  log : list effect
}.

Definition init (bs : list button) : state :=
  {| currentAudio := None; currentAnalysisId := None; audios := [];
     buttons := bs; playerShown := false; nowPlaying := None; log := [] |}.

Definition set_paused (b : bool) (a : audio) : audio :=
  {| src := src a; paused := b; currentTime := currentTime a;
     duration := duration a |}.

Definition set_time (t : Q) (a : audio) : audio :=
  {| src := src a; paused := paused a; currentTime := t;
     duration := duration a |}.

Definition mark_playing (b : button) : button :=
  {| onclick := onclick b; playing := true; btn_icon := FaPause;
     title := "Pause audio" |}.

Definition mark_idle (b : button) : button :=
  {| onclick := onclick b; playing := false; btn_icon := FaPlay;
     title := "Play audio" |}.

(** [parseInt(btnAnalysisId[1]) === analysisId] guarded by the match. *)
Definition button_is (analysisId : option N) (b : button) : bool :=
  match onclick b, analysisId with
  | Some n, Some m => (n =? m)%N
  | _, _ => false
  end.

Definition updateButton (analysisId : option N) (st : bstate) (b : button)
  : button :=
  if button_is analysisId b then
    match st with
    | SPlaying => mark_playing b
    | _ => mark_idle b
    end
  else
    match st with
    | SPlaying => mark_idle b
    | _ => b
    end.

Definition updatePlayButtons (analysisId : option N) (st : bstate) (s : state)
  : state :=
  {| currentAudio := currentAudio s;
     currentAnalysisId := currentAnalysisId s;
     audios := audios s;
     buttons := map (updateButton analysisId st) (buttons s);
     playerShown := playerShown s;
     nowPlaying := nowPlaying s;
     log := log s ++ [EUpdateButtons analysisId st] |}.

Definition showGlobalAudioPlayer (analysisId : N) (s : state) : state :=
  {| currentAudio := currentAudio s;
     currentAnalysisId := currentAnalysisId s;
     audios := audios s;
     buttons := buttons s;
     playerShown := true;
     nowPlaying := Some analysisId;
     log := log s ++ [EShowPlayer analysisId] |}.

Definition hideGlobalAudioPlayer (s : state) : state :=
  {| currentAudio := currentAudio s;
     currentAnalysisId := currentAnalysisId s;
     audios := audios s;
     buttons := buttons s;
     playerShown := false;
     nowPlaying := nowPlaying s;
     log := log s ++ [EHidePlayer] |}.

(** [currentAudio.pause()] on object [h]. *)
Definition pause (h : nat) (s : state) : state :=
  {| currentAudio := currentAudio s;
     currentAnalysisId := currentAnalysisId s;
     audios := alter (set_paused true) h (audios s);
     buttons := buttons s;
     playerShown := playerShown s;
     nowPlaying := nowPlaying s;
     log := log s ++ [EPause h] |}.

(** [currentAudio.play()] on object [h]. *)
Definition play (h : nat) (s : state) : state :=
  {| currentAudio := currentAudio s;
     currentAnalysisId := currentAnalysisId s;
     audios := alter (set_paused false) h (audios s);
     buttons := buttons s;
     playerShown := playerShown s;
     nowPlaying := nowPlaying s;
     log := log s ++ [EPlay h] |}.

Definition release (s : state) : state :=
  {| currentAudio := None;
     currentAnalysisId := currentAnalysisId s;
     audios := audios s;
     buttons := buttons s;
     playerShown := playerShown s;
     nowPlaying := nowPlaying s;
     log := log s |}.

Definition forget_id (s : state) : state :=
  {| currentAudio := currentAudio s;
     currentAnalysisId := None;
     audios := audios s;
     buttons := buttons s;
     playerShown := playerShown s;
     nowPlaying := nowPlaying s;
     log := log s |}.

Definition fresh_audio (analysisId : N) : audio :=
  {| src := analysisId; paused := true; currentTime := 0; duration := None |}.

(** [currentAudio = new Audio(url); currentAnalysisId = analysisId]. *)
Definition newAudio (analysisId : N) (s : state) : state :=
  let h := length (audios s) in
  {| currentAudio := Some h;
     currentAnalysisId := Some analysisId;
     audios := audios s ++ [fresh_audio analysisId];
     buttons := buttons s;
     playerShown := playerShown s;
     nowPlaying := nowPlaying s;
     log := log s ++ [ENewAudio h analysisId] |}.

(** [setTimeout(..., 10000)], the load watchdog of object [h]. *)
Definition armWatchdog (h : nat) (s : state) : state :=
  {| currentAudio := currentAudio s;
     currentAnalysisId := currentAnalysisId s;
     audios := audios s;
     buttons := buttons s;
     playerShown := playerShown s;
     nowPlaying := nowPlaying s;
     log := log s ++ [EWatchdog h 10000] |}.

(** The "Stop current audio if playing" block of [playAudio]. *)
Definition stopCurrent (s : state) : state :=
  match currentAudio s with
  | Some h => release (pause h s)
  | None => s
  end.

(** [playAudio].  The listeners it attaches to the new object, and the
    handler of a rejected [play()], run later, when the browser fires the
    event; only the arming of the load watchdog is recorded here. *)
Definition playAudio (analysisId : N) (s : state) : state :=
  let s1 := stopCurrent s in
  let s2 := updatePlayButtons (Some analysisId) SPlaying s1 in
  let s3 := newAudio analysisId s2 in
  let s4 := showGlobalAudioPlayer analysisId s3 in
  let h := length (audios s2) in
  play h (armWatchdog h s4).

Definition togglePlayPause (s : state) : state :=
  match currentAudio s with
  | Some h =>
      match audios s !! h with
      | Some a =>
          if paused a
          then updatePlayButtons (currentAnalysisId s) SPlaying (play h s)
          else updatePlayButtons (currentAnalysisId s) SPaused (pause h s)
      | None => s
      end
  | None => s
  end.

(** [currentAudio.currentTime = 0]: position 0 is within range whatever
    the duration, so the element stores it as it is. *)
Definition rewind (h : nat) (s : state) : state :=
  {| currentAudio := currentAudio s;
     currentAnalysisId := currentAnalysisId s;
     audios := alter (set_time 0) h (audios s);
     buttons := buttons s;
     playerShown := playerShown s;
     nowPlaying := nowPlaying s;
     log := log s |}.

Definition stopAudio (s : state) : state :=
  match currentAudio s with
  | Some h =>
      let s1 := rewind h (pause h s) in
      let s2 := updatePlayButtons (currentAnalysisId s1) SStopped s1 in
      forget_id (release (hideGlobalAudioPlayer s2))
  | None => s
  end.

(** Truthiness of [currentAudio.duration]: neither [NaN] nor [0]. *)
Definition known_duration (a : audio) : option Q :=
  match duration a with
  | Some d => if Qeq_bool d 0 then None else Some d
  | None => None
  end.

(** The [currentTime] setter of a media element seeks: once the duration
    is known, a position before the start becomes 0 and one past the end
    becomes the duration (the resource can be sought anywhere in
    between). *)
Definition clamp (d t : Q) : Q :=
  if Qle_bool t 0 then 0 else if Qle_bool d t then d else t.

Definition assign_time (t : Q) (a : audio) : audio :=
  match duration a with
  | Some d => set_time (clamp d t) a
  | None => set_time t a
  end.

(** [currentAudio.currentTime = t] on object [h]; the log keeps the value
    the script assigned. *)
Definition seekTo (h : nat) (t : Q) (s : state) : state :=
  {| currentAudio := currentAudio s;
     currentAnalysisId := currentAnalysisId s;
     audios := alter (assign_time t) h (audios s);
     buttons := buttons s;
     playerShown := playerShown s;
     nowPlaying := nowPlaying s;
     log := log s ++ [ESeek h t] |}.

(** [(percentage / 100) * currentAudio.duration], in binary64: the
    argument is the number the slider's string denotes, converted and then
    divided and multiplied with a rounding each. *)
Definition seekTime (percentage d : Q) : option Q :=
  match Double.round percentage with
  | Some p =>
      match Double.div p 100 with
      | Some f => Double.mul f d
      | None => None
      end
  | None => None
  end.

(** [seekAudio]; a [seekTime] that is not finite makes the setter throw,
    which leaves everything as it was. *)
Definition seekAudio (percentage : Q) (s : state) : state :=
  match currentAudio s with
  | Some h =>
      match audios s !! h with
      | Some a =>
          match known_duration a with
          | Some d =>
              match seekTime percentage d with
              | Some t => seekTo h t s
              | None => s
              end
          | None => s
          end
      | None => s
      end
  | None => s
  end.

(** The position of the current session, when there is one. *)
Definition position (s : state) : option Q :=
  match currentAudio s with
  | Some h => currentTime <$> (audios s !! h)
  | None => None
  end.

(** Every audio object that is not paused is the current one. *)
Definition single_active (s : state) : Prop :=
  forall h a, audios s !! h = Some a -> paused a = false ->
    currentAudio s = Some h.

(** What the browser does to object [h] while it loads and plays: its
    position and its reported duration change. *)
Definition set_media (t : Q) (d : option Q) (a : audio) : audio :=
  {| src := src a; paused := paused a; currentTime := t; duration := d |}.

Definition mediaProgress (h : nat) (t : Q) (d : option Q) (s : state) : state :=
  {| currentAudio := currentAudio s;
     currentAnalysisId := currentAnalysisId s;
     audios := alter (set_media t d) h (audios s);
     buttons := buttons s;
     playerShown := playerShown s;
     nowPlaying := nowPlaying s;
     log := log s |}.

(** An object created for [analysisId] on which [play()] was called. *)
Definition started_audio (analysisId : N) : audio :=
  set_paused false (fresh_audio analysisId).

(** The same object after [pause()]. *)
Definition stopped_audio (analysisId : N) : audio :=
  set_paused true (started_audio analysisId).

(** What [updatePlayButtons(id, 'playing')] makes of one button. *)
Definition now_playing (analysisId : N) (b : button) : button :=
  if button_is (Some analysisId) b then mark_playing b else mark_idle b.

(** Sample page: two rows, for analyses 3 and 5. *)
Definition two_buttons : list button :=
  [Button (Some 3%N) false FaPlay "Play audio";
   Button (Some 5%N) false FaPlay "Play audio"].

(** A session for analysis 7 whose metadata reported 200 seconds. *)
Definition loaded_session : state :=
  mediaProgress 0 0 (Some 200%Q) (playAudio 7 (init [])).

Inductive call :=
| CPlay (analysisId : N)
| CToggle
| CStop
| CSeek (percentage : Q).

Definition apply (s : state) (c : call) : state :=
  match c with
  | CPlay i => playAudio i s
  | CToggle => togglePlayPause s
  | CStop => stopAudio s
  | CSeek p => seekAudio p s
  end.

End AudioPlayer.

(** ** Task-status poller: outcome of a run *)

Module TaskTrackerOutcome.

Import TaskTracker.

(** The status an item shows once the answer [r] has ended the polling
    (for "running": once the budget is used up). *)
Definition outcome (r : response) : status :=
  match r with
  | FetchRejected | BodyNotJson => Errored
  | HttpNotOk _ => Processing
  | Body st =>
      if status_is st "completed" then Completed
      else if status_is st "failed" then Failed
      else TimedOut
  end.

(** The notifications the tracker has shown by then. *)
Definition announced (fname : string) (r : response) : list notification :=
  match outcome r with
  | Completed => [Notify ("Analysis completed for " ++ fname) NSuccess 3000]
  | Failed => [Notify ("Analysis failed for " ++ fname) NError 3000]
  | _ => []
  end.

End TaskTrackerOutcome.

(** ** Upload queue: sequences of calls, and submission *)

Module Submission.

Import UploadQueue.

(** The calls that fill and empty the queue. *)
Inductive qop :=
| QAdd (files : list file)
| QClear.

Definition qapply (s : state) (o : qop) : state :=
  match o with
  | QAdd files => addFilesToQueue files s
  | QClear => clearUploadQueue s
  end.

(** The values [startAnalysis] reads from the option controls. *)
Record options := Options {
  copyright : bool;
  bias : bool;
  content : bool;
  priority : string
}.

(** The multipart body of one POST to /api/analyze/async. *)
Record request := Request {
  req_file : file;
  req_lyrics : string;
  req_priority : string
}.

(** What one submission can come to: [response.ok] with a parsed body;
    a response that is not ok, whose body may carry a [detail]; or an
    exception (rejected fetch, unparsable body) with its message. *)
Inductive submit_outcome :=
| Accepted (task_id : string)
| Refused (detail : option string)
| Threw (message : string).

(** One call [pollTaskStatus(task_id, item, fileName)], [item] being the
    child of [#queue-list] at [item_index]. *)
Record started := Started {
  task_id_of : string;
  item_index : nat;
  file_of : string
}.

Record outputs := Outputs {
  notes : list notification;
  requests : list request;
  polls : list started
}.

(** [errorData.detail || 'Analysis failed to start'] *)
Definition refusal (detail : option string) : string :=
  match detail with
  | Some d => if Js.truthy d then d else "Analysis failed to start"
  | None => "Analysis failed to start"
  end.

(** The [for] loop of [startAnalysis], from index [i] on: [files] and
    [items] are what is left of [uploadedFiles] and of the children of
    [#queue-list]; [respond j] is what the [j]-th submission comes to. *)
Fixpoint submitLoop (prio : string) (respond : nat -> submit_outcome)
  (i : nat) (files : list file) (items : list item_html) (out : outputs)
  : list item_html * outputs :=
  match files, items with
  | f :: files', _ :: items' =>
      let fileName := name f in
      let sent := requests out ++ [Request f "" prio] in
      let '(item, out1) :=
        match respond i with
        | Accepted tid =>
            (ItemProcessing fileName,
             Outputs (notes out) sent (polls out ++ [Started tid i fileName]))
        | Refused detail =>
            (ItemFailedWith fileName (refusal detail),
             Outputs
               (showNotification
                  ("Failed to analyze " ++ fileName ++ ": " ++ refusal detail)
                  NError default_duration (notes out))
               sent (polls out))
        | Threw message =>
            (ItemFailedWith fileName message,
             Outputs
               (showNotification
                  ("Failed to analyze " ++ fileName ++ ": " ++ message)
                  NError default_duration (notes out))
               sent (polls out))
        end in
      let '(rest, out2) := submitLoop prio respond (S i) files' items' out1 in
      (item :: rest, out2)
  | _, _ => (items, out)
  end.

Record submission := Submission {
  after : state;
  sent : list request;
  tracked : list started
}.

Definition warn (msg : string) (s : state) : submission :=
  {| after :=
       {| queueList := queueList s; uploadQueue := uploadQueue s;
          uploadedFiles := uploadedFiles s;
          notifications :=
            showNotification msg NWarning default_duration (notifications s) |};
     sent := []; tracked := [] |}.

(** [startAnalysis], run to the end of its loop with no queue clearing in
    between.  Without [#queue-list] the first line throws and nothing
    happens.  The dimming of an item ([opacity]) is not part of
    [item_html]. *)
Definition startAnalysis (o : options) (respond : nat -> submit_outcome)
  (s : state) : submission :=
  match queueList s with
  | None => {| after := s; sent := []; tracked := [] |}
  | Some items =>
      if (length items =? 0)%nat then warn "No files in queue" s
      else if (length (uploadedFiles s) =? 0)%nat
      then warn "No files available for analysis" s
      else
        let started_note :=
          showNotification "Starting analysis..." NInfo default_duration
            (notifications s) in
        let '(items', out) :=
          submitLoop (priority o) respond 0 (uploadedFiles s) items
            (Outputs started_note [] []) in
        {| after :=
             {| queueList := Some items'; uploadQueue := uploadQueue s;
                uploadedFiles := uploadedFiles s;
                notifications :=
                  showNotification "Analysis started for all files!" NSuccess
                    default_duration (notes out) |};
           sent := requests out; tracked := polls out |}
  end.

(** The item markup a submission outcome leaves for a file. *)
Definition settled (fname : string) (r : submit_outcome) : item_html :=
  match r with
  | Accepted _ => ItemProcessing fname
  | Refused detail => ItemFailedWith fname (refusal detail)
  | Threw message => ItemFailedWith fname message
  end.

(** The error notification a submission outcome gives rise to, if any. *)
Definition failure_note (fname : string) (r : submit_outcome)
  : list notification :=
  match r with
  | Accepted _ => []
  | Refused detail =>
      [Notify ("Failed to analyze " ++ fname ++ ": " ++ refusal detail)
         NError default_duration]
  | Threw message =>
      [Notify ("Failed to analyze " ++ fname ++ ": " ++ message)
         NError default_duration]
  end.

(** The poller an accepted submission starts. *)
Definition poll_for (j : nat) (fname : string) (r : submit_outcome)
  : list started :=
  match r with
  | Accepted tid => [Started tid j fname]
  | _ => []
  end.

(** The files the loop reaches, with their indices. *)
Definition jobs (i : nat) (files : list file) (items : list item_html)
  : list (nat * file) :=
  combine (seq i (Nat.min (length files) (length items))) files.

Definition is_accepted (r : submit_outcome) : bool :=
  match r with Accepted _ => true | _ => false end.

Definition is_error (n : notification) : bool :=
  match n_type n with NError => true | _ => false end.

Definition sample_respond (i : nat) : submit_outcome :=
  match i with
  | 0%nat => Threw "Failed to fetch"
  | 1%nat => Accepted "t1"
  | _ => Refused None
  end.

(** What adding and clearing keep true of a page that started empty. *)
Definition aligned (s : state) : Prop :=
  queueList s = Some (map createQueueItem (uploadedFiles s)) /\
  uploadQueue s =
    Some (if (0 <? length (uploadedFiles s))%nat
          then DisplayBlock else DisplayNone) /\
  Forall (fun f => isValidAudioFile f = true) (uploadedFiles s).

Definition sample_queue : state :=
  addFilesToQueue [File "a.mp3" 1; File "b.wav" 2; File "c.ogg" 3] page.

End Submission.

(** ** Analysis table: windows and pagination controls *)

Module Pagination.

Import ResultList.

(** The rows [displayAnalysesWithPagination] hands to [displayAnalyses]
    for a page. *)
Definition pageRows (page : Z) (analyses : list analysis) : list analysis :=
  let startIndex := ((page - 1) * itemsPerPage)%Z in
  let endIndex := (startIndex + itemsPerPage)%Z in
  slice startIndex endIndex analyses.

(** What [updatePagination(totalItems)] writes when the four pagination
    elements exist: whether the bar is displayed, the numbers of the
    "Page p of t" text, and the [disabled] flags of the two buttons. *)
Record controls := Controls {
  bar_shown : bool;
  page_info : Z * Z;
  prev_disabled : bool;
  next_disabled : bool
}.

Definition updatePagination (totalItems : nat) (page : Z) : controls :=
  let totalPages := totalPagesOf totalItems in
  {| bar_shown := (1 <? totalPages)%Z;
     page_info := (page, totalPages);
     prev_disabled := (page <=? 1)%Z;
     next_disabled := (totalPages <=? page)%Z |}.

(** The controls as the last [updatePagination] for the current state
    would set them. *)
Definition controlsOf (s : state) : controls :=
  updatePagination (length (filteredAnalyses s)) (currentPage s).

(** The page numbers 1 .. totalPages. *)
Definition pageNumbers (analyses : list analysis) : list Z :=
  map Z.of_nat (seq 1 (Z.to_nat (totalPagesOf (length analyses)))).

(** The count label tells the lengths of the two lists. *)
Definition label_true (s : state) : Prop :=
  match analysisCount s with
  | None => True
  | Some (CountAll n) => n = length (allAnalyses s)
  | Some (CountMatching k n) =>
      k = length (filteredAnalyses s) /\ n = length (allAnalyses s)
  end.

Definition is_filter_of {A} (l all : list A) : Prop :=
  exists keep : A -> bool, l = List.filter keep all.

End Pagination.

(** ** Dashboard data: loading and refreshing *)

Module Dashboard.

Import ResultList.

(** The fields of the /api/dashboard-stats answer the script reads.
    [None] stands for a field that is missing
    ([stats.compliance_scores?.copyright], [stats.trend_data.labels]). *)
Record stats := Stats {
  total_analyses : N;
  score_copyright : option Q;
  score_bias : option Q;
  trend_labels : option (list string);
  recent_analyses : option N;
  issues_found : option N
}.

(** [Math.round(x || 0)] on an optional number. *)
Definition round_or_0 (x : option Q) : Z :=
  match x with
  | Some q => if Qeq_bool q 0 then 0%Z else Qfloor (q + (1 # 2))
  | None => 0%Z
  end.

Inductive chart_message := NoAnalysesYet | NoTrendData.

(** Writes to the dashboard widgets, and calls of the two functions that
    only draw ([updateAnalysisQueue], [updateTrendChart]); drawing is
    taken not to throw. *)
Inductive widget :=
| ProgressCircle (index : nat) (percentage : Z)   (* updateProgressCircle *)
| BigNumber (n : N)                               (* .big-number text *)
| ChartMessage (m : chart_message)                (* #trendsChart markup *)
| AnalysisQueue (s : stats)                       (* updateAnalysisQueue *)
| TrendChart (labels : list string).              (* updateTrendChart *)

Record state := State {
  table : ResultList.state;
  widgets : list widget;
  notes : list notification;
  console : list string
}.

Definition has_trend (s : stats) : option (list string) :=
  match trend_labels s with
  | Some (l :: ls) => Some (l :: ls)
  | _ => None
  end.

(** [updateDashboardMetrics(stats, analyses, rules)]; [rules] is never
    read. *)
Definition updateDashboardMetrics (st : stats) (analyses : list analysis)
  (d : state) : state :=
  let copyrightScore := round_or_0 (score_copyright st) in
  let biasScore := round_or_0 (score_bias st) in
  if (total_analyses st =? 0)%N then
    {| table := table d;
       widgets := widgets d ++
         [ProgressCircle 0 0; ProgressCircle 1 0; BigNumber 0;
          ChartMessage NoAnalysesYet];
       notes := notes d; console := console d |}
  else
    {| table := updateAnalysisTable analyses (table d);
       widgets := widgets d ++
         [ProgressCircle 0 copyrightScore; ProgressCircle 1 biasScore;
          BigNumber (total_analyses st); AnalysisQueue st;
          match has_trend st with
          | Some labels => TrendChart labels
          | None => ChartMessage NoTrendData
          end];
       notes := notes d; console := console d |}.

Definition getMockStats : stats :=
  {| total_analyses := 0;
     score_copyright := Some 0%Q; score_bias := Some 0%Q;
     trend_labels :=
       Some ["Jan 01"; "Feb 01"; "Mar 01"; "Apr 01"; "May 01"; "Jun 01";
             "Jul 01"; "Aug 01"];
     recent_analyses := Some 87%N; issues_found := None |}.

Definition getMockAnalyses : list analysis :=
  [Analysis 1 (Some "sample_song.mp3");
   Analysis 2 (Some "another_track.wav");
   Analysis 3 (Some "test_audio.flac")].

(** What the three fetches of [loadDashboardData] come to: an exception
    somewhere in the [try] block, or the stats together with the analyses
    ([None] when that response is not ok or carries no list). *)
Inductive loaded :=
| LoadFailed
| Loaded (st : stats) (analyses : option (list analysis)).

Definition loadDashboardData (l : loaded) (d : state) : state :=
  match l with
  | Loaded st analyses =>
      updateDashboardMetrics st
        (match analyses with Some a => a | None => [] end) d
  | LoadFailed =>
      updateDashboardMetrics getMockStats getMockAnalyses
        {| table := table d; widgets := widgets d; notes := notes d;
           console := console d ++ ["Error loading dashboard data:"] |}
  end.

Definition notify (msg : string) (k : ntype) (ms : N) (d : state) : state :=
  {| table := table d; widgets := widgets d;
     notes := showNotification msg k ms (notes d);
     console := console d |}.

(** [refreshAnalyses]: [loadDashboardData] handles its own failures, so
    the [catch] of [refreshAnalyses] has nothing to catch. *)
Definition refreshAnalyses (l : loaded) (d : state) : state :=
  notify "Analyses refreshed successfully!" NSuccess 2000
    (loadDashboardData l (notify "Refreshing analyses..." NInfo 1000 d)).

Definition start : state :=
  {| table := ResultList.init; widgets := []; notes := []; console := [] |}.

Definition sample_stats : stats :=
  {| total_analyses := 12; score_copyright := Some (173 # 2);
     score_bias := None; trend_labels := None;
     recent_analyses := Some 3%N; issues_found := Some 1%N |}.

End Dashboard.

(** ** Audio player: progress display, lyrics modal, sequences of calls *)

Module PlayerPage.

Import AudioPlayer.

(** [Number.prototype.toString] on an integer. *)
Definition toStringZ (z : Z) : string :=
  if (z <? 0)%Z then ("-" ++ Js.toString (Z.to_N (- z)))%string
  else Js.toString (Z.to_N z).

(** [s.padStart(2, '0')] *)
Definition padStart2 (s : string) : string :=
  match String.length s with
  | 0%nat => "00"
  | 1%nat => ("0" ++ s)%string
  | _ => s
  end.

(** [Math.trunc]-style quotient of the JavaScript [%] on numbers. *)
Definition Qtrunc (q : Q) : Z :=
  if Qle_bool 0 q then Qfloor q else Qceiling q.

(** [x % 60] *)
Definition rem60 (x : Q) : Q := x - 60 * inject_Z (Qtrunc (x / 60)).

(** [formatTime(seconds)]; [None] is a [NaN] or infinite argument. *)
Definition formatTime (seconds : option Q) : string :=
  match seconds with
  | None => "0:00"
  | Some s =>
      let minutes := Qfloor (s / 60) in
      let remainingSeconds := Qfloor (rem60 s) in
      (toStringZ minutes ++ ":" ++ padStart2 (toStringZ remainingSeconds))%string
  end.

(** The two digits of a number below 100. *)
Definition two_digits (n : N) : string :=
  String (ascii_of_N (48 + n / 10)) (String (ascii_of_N (48 + n mod 10)) "").

(** What [updateAudioProgress] writes into the player: the value of the
    range input, the width of the fill in percent ([None] when the number
    is not finite), and the two times. *)
Record progress := Progress {
  bar_value : option Q;
  fill_width : option Q;
  current_text : string;
  total_text : string
}.

(** [(currentAudio.currentTime / currentAudio.duration) * 100], in
    binary64. *)
Definition progressOf (t d : Q) : option Q :=
  match Double.div t d with
  | Some f => Double.mul f 100
  | None => None
  end.

(** [updateAudioProgress]: nothing is written without a current object or
    while its duration is unknown (or 0). *)
Definition updateAudioProgress (s : state) : option progress :=
  match currentAudio s with
  | Some h =>
      match audios s !! h with
      | Some a =>
          match known_duration a with
          | Some d =>
              let p := progressOf (currentTime a) d in
              Some {| bar_value := p; fill_width := p;
                      current_text := formatTime (Some (currentTime a));
                      total_text := formatTime (Some d) |}
          | None => None
          end
      | None => None
      end
  | None => None
  end.

(** The lyrics and analysis modals share [currentAnalysisId] with the
    player. *)
Inductive modal_display := ModalUnset | ModalFlex | ModalNone.

Inductive lyrics_content := NoContent | LoadingLyrics.

Record page := Page {
  player : AudioPlayer.state;
  lyricsModal : modal_display;
  lyricsContent : lyrics_content;
  analysisModal : modal_display;
  shown_notes : list notification;
  clearedWatchdogs : list N          (* clearTimeout(loadTimeout), by analysis *)
}.

Definition set_id (i : option N) (s : state) : state :=
  {| currentAudio := currentAudio s;
     currentAnalysisId := i;
     audios := audios s;
     buttons := buttons s;
     playerShown := playerShown s;
     nowPlaying := nowPlaying s;
     log := log s |}.

(** [showLyrics], up to the start of its two fetches. *)
Definition showLyrics (analysisId : N) (pg : page) : page :=
  {| player := set_id (Some analysisId) (player pg);
     lyricsModal := ModalFlex;
     lyricsContent := LoadingLyrics;
     analysisModal := analysisModal pg;
     shown_notes := shown_notes pg;
     clearedWatchdogs := clearedWatchdogs pg |}.

Definition closeLyricsModal (pg : page) : page :=
  {| player := set_id None (player pg);
     lyricsModal := ModalNone;
     lyricsContent := lyricsContent pg;
     analysisModal := analysisModal pg;
     shown_notes := shown_notes pg;
     clearedWatchdogs := clearedWatchdogs pg |}.

Definition closeAnalysisModal (pg : page) : page :=
  {| player := set_id None (player pg);
     lyricsModal := lyricsModal pg;
     lyricsContent := lyricsContent pg;
     analysisModal := ModalNone;
     shown_notes := shown_notes pg;
     clearedWatchdogs := clearedWatchdogs pg |}.

Definition on_player (f : state -> state) (pg : page) : page :=
  {| player := f (player pg);
     lyricsModal := lyricsModal pg;
     lyricsContent := lyricsContent pg;
     analysisModal := analysisModal pg;
     shown_notes := shown_notes pg;
     clearedWatchdogs := clearedWatchdogs pg |}.

(** The last four statements shared by the handlers that [playAudio]
    attaches for its [analysisId]: reset that analysis' buttons, hide the
    player, and null the two module variables. *)
Definition sessionOver (analysisId : N) (s : state) : state :=
  forget_id (release (hideGlobalAudioPlayer
    (updatePlayButtons (Some analysisId) SStopped s))).

(** The 'ended' listener attached by [playAudio(analysisId)]. *)
Definition endedHandler (analysisId : N) (pg : page) : page :=
  on_player (sessionOver analysisId) pg.

(** The handler attached to [currentAudio.play()] by
    [playAudio(analysisId)], run with the message of the rejection (its
    console message aside). *)
Definition playRejected (analysisId : N) (message : string) (pg : page) : page :=
  {| player := sessionOver analysisId (player pg);
     lyricsModal := lyricsModal pg;
     lyricsContent := lyricsContent pg;
     analysisModal := analysisModal pg;
     shown_notes :=
       showNotification ("Error playing audio: " ++ message) NError
         default_duration (shown_notes pg);
     clearedWatchdogs := clearedWatchdogs pg ++ [analysisId] |}.

(** What a user can trigger: the player's controls (the close button of
    the player calls [hideGlobalAudioPlayer]) and the modals. *)
Inductive action :=
| Play (analysisId : N)
| Toggle
| Stop
| Seek (percentage : Q)
| HidePlayer
| ShowLyrics (analysisId : N)
| CloseLyrics
| CloseAnalysis.

Definition act (pg : page) (a : action) : page :=
  match a with
  | Play i => on_player (playAudio i) pg
  | Toggle => on_player togglePlayPause pg
  | Stop => on_player stopAudio pg
  | Seek p => on_player (seekAudio p) pg
  | HidePlayer => on_player hideGlobalAudioPlayer pg
  | ShowLyrics i => showLyrics i pg
  | CloseLyrics => closeLyricsModal pg
  | CloseAnalysis => closeAnalysisModal pg
  end.

Definition fresh_page (bs : list button) : page :=
  {| player := init bs; lyricsModal := ModalUnset;
     lyricsContent := NoContent; analysisModal := ModalUnset;
     shown_notes := []; clearedWatchdogs := [] |}.

(** Number of audio objects that are not paused. *)
Definition playing_count (s : state) : nat :=
  length (List.filter (fun a => negb (paused a)) (audios s)).

(** The current object exists. *)
Definition current_exists (s : state) : Prop :=
  forall h, currentAudio s = Some h -> is_Some (audios s !! h).

End PlayerPage.

(** ** Settings form and localStorage *)

Module Settings.

(** The values a settings object holds. *)
Inductive jsvalue :=
| VStr (s : string)
| VBool (b : bool)
| VNum (z : Z).

(** A plain object: its own properties in insertion order. *)
Definition jsobject := list (string * jsvalue).

Fixpoint prop (key : string) (o : jsobject) : option jsvalue :=
  match o with
  | [] => None
  | (k, v) :: o' => if String.eqb k key then Some v else prop key o'
  end.

(** [localStorage].  A stored settings text is kept as the object it is
    the JSON of: [JSON.parse] undoes [JSON.stringify] on objects of
    strings and booleans. *)
Definition storage := list (string * jsobject).

Fixpoint getItem (key : string) (st : storage) : option jsobject :=
  match st with
  | [] => None
  | (k, v) :: st' => if String.eqb k key then Some v else getItem key st'
  end.

Definition removeItem (key : string) (st : storage) : storage :=
  List.filter (fun kv => negb (String.eqb (fst kv) key)) st.

Definition setItem (key : string) (v : jsobject) (st : storage) : storage :=
  match getItem key st with
  | Some _ =>
      map (fun kv => if String.eqb (fst kv) key then (key, v) else kv) st
  | None => st ++ [(key, v)]
  end.

(** [Object.keys(localStorage)] *)
Definition keys (st : storage) : list string := map fst st.

(** [key.startsWith('musicPolice_')] *)
Definition cached (key : string) : bool := Js.startsWith key "musicPolice_".

(** [clearCache]; [confirmed] is the answer to the [confirm] dialog. *)
Definition clearCache (confirmed : bool) (st : storage)
  (notes : list notification) : storage * list notification :=
  if confirmed then
    (fold_left
       (fun acc key => if cached key then removeItem key acc else acc)
       (keys st) st,
     showNotification "Cache cleared successfully!" NSuccess default_duration
       notes)
  else (st, notes).

(** A form control: it has a [type], a [value] and a [checked] flag. *)
Record control := Control {
  is_checkbox : bool;
  value : string;
  checked : bool
}.

(** The controls of the page by element id; [None] when
    [document.getElementById] finds nothing. *)
Definition form := string -> option control.

Definition set_control (id : string) (c : control) (f : form) : form :=
  fun k => if String.eqb k id then Some c else f k.

(** Assigning to [value] and to [checked] converts to string and to
    boolean. *)
Definition to_text (v : jsvalue) : string :=
  match v with
  | VStr s => s
  | VBool true => "true"
  | VBool false => "false"
  | VNum z => PlayerPage.toStringZ z
  end.

Definition to_flag (v : jsvalue) : bool :=
  match v with
  | VStr s => Js.truthy s
  | VBool b => b
  | VNum z => negb (z =? 0)%Z
  end.

Definition keyMappings : list (string * string) :=
  [("default_priority", "default-priority");
   ("auto_delete_days", "auto-delete");
   ("email_notifications", "email-notifications");
   ("api_rate_limit", "rate-limit");
   ("max_file_size_mb", "max-file-size");
   ("api_logging", "api-logging");
   ("require_auth", "require-auth");
   ("encrypt_files", "encrypt-files");
   ("session_timeout_minutes", "session-timeout")].

(** Body of the [forEach] of [updateSettingsUI] for one database key. *)
Definition applyKey (settings : jsobject) (f : form) (m : string * string)
  : form :=
  let '(dbKey, frontendKey) := m in
  match f frontendKey, prop dbKey settings with
  | Some element, Some v =>
      if is_checkbox element
      then set_control frontendKey
             (Control (is_checkbox element) (value element) (to_flag v)) f
      else set_control frontendKey
             (Control (is_checkbox element) (to_text v) (checked element)) f
  | _, _ => f
  end.

Definition updateSettingsUI (settings : jsobject) (f : form) : form :=
  fold_left (applyKey settings) keyMappings f.

(** The object [saveSettings] builds from the form; [None] when one of
    the nine controls is missing (the function then throws at once). *)
Definition readSettings (f : form) : option jsobject :=
  match f "default-priority", f "auto-delete", f "email-notifications",
        f "rate-limit", f "max-file-size", f "api-logging",
        f "require-auth", f "encrypt-files", f "session-timeout" with
  | Some dp, Some ad, Some en, Some rl, Some mf, Some al, Some ra, Some ef,
    Some st =>
      Some [("default-priority", VStr (value dp));
            ("auto-delete", VStr (value ad));
            ("email-notifications", VBool (checked en));
            ("rate-limit", VStr (value rl));
            ("max-file-size", VStr (value mf));
            ("api-logging", VBool (checked al));
            ("require-auth", VBool (checked ra));
            ("encrypt-files", VBool (checked ef));
            ("session-timeout", VStr (value st))]
  | _, _, _, _, _, _, _, _, _ => None
  end.

(** What the POST of [saveSettings] comes to. *)
Inductive saved := SaveOk | SaveNotOk | SaveThrew.

Record browser := Browser {
  controls : form;
  local : storage;
  shown : list notification
}.

Definition saveSettings (r : saved) (b : browser) : browser :=
  match readSettings (controls b) with
  | None => b
  | Some settings =>
      match r with
      | SaveOk =>
          {| controls := controls b; local := local b;
             shown := showNotification
                        "✅ Settings saved successfully to database!"
                        NSuccess default_duration (shown b) |}
      | SaveNotOk | SaveThrew =>
          {| controls := controls b;
             local := setItem "musicPoliceSettings" settings (local b);
             shown := showNotification
                        "⚠️ Settings saved locally (database unavailable)"
                        NWarning default_duration (shown b) |}
      end
  end.

(** What the GET of [loadSettingsData] comes to. *)
Inductive fetched := Fetched (settings : jsobject) | FetchFailed.

Definition loadSettingsData (r : fetched) (b : browser) : browser :=
  let settings :=
    match r with
    | Fetched s => s
    | FetchFailed =>
        match getItem "musicPoliceSettings" (local b) with
        | Some s => s
        | None => []
        end
    end in
  {| controls := updateSettingsUI settings (controls b);
     local := local b; shown := shown b |}.

(** A page with the nine controls at the values of [resetSettings]. *)
Definition default_form : form :=
  fun id =>
    if String.eqb id "default-priority" then Some (Control false "normal" false)
    else if String.eqb id "auto-delete" then Some (Control false "7" false)
    else if String.eqb id "email-notifications" then Some (Control true "on" true)
    else if String.eqb id "rate-limit" then Some (Control false "100" false)
    else if String.eqb id "max-file-size" then Some (Control false "100" false)
    else if String.eqb id "api-logging" then Some (Control true "on" true)
    else if String.eqb id "require-auth" then Some (Control true "on" true)
    else if String.eqb id "encrypt-files" then Some (Control true "on" true)
    else if String.eqb id "session-timeout" then Some (Control false "60" false)
    else None.

Definition sample_storage : storage :=
  [("musicPolice_cache", []); ("theme", [("dark", VBool true)]);
   ("musicPoliceSettings", [("auto-delete", VStr "30")]);
   ("musicPolice_recent", [])].

End Settings.

(** ** Table rows and their play buttons *)

Module Rows.

Import AudioPlayer.

(** The fields of an analysis that [createAnalysisRow] reads ([None]: the
    field is missing). *)
Record record := Record_ {
  rid : N;
  rfilename : option string;
  compliance_score : option Q;
  issues_count : option N
}.

(** [Number.isSafeInteger(id)]: below [2 ^ 53] every integer is a number
    of its own and prints as its decimal digits. *)
Definition safe_integer (id : N) : Prop := (id < 2 ^ 53)%N.

(** The onclick attribute written for the play button of a row. *)
Definition onclickAttr (id : N) : string :=
  ("playAudio(" ++ Js.toString id ++ ")")%string.

(** Longest prefix of decimal digits, and what follows it. *)
Fixpoint takeDigits (s : string) : string * string :=
  match s with
  | EmptyString => (EmptyString, EmptyString)
  | String c s' =>
      if Js.is_digit c
      then let '(ds, rest) := takeDigits s' in (String c ds, rest)
      else (EmptyString, s)
  end.

Fixpoint drop (n : nat) (s : string) : string :=
  match n, s with
  | O, _ => s
  | S n', String _ s' => drop n' s'
  | S _, EmptyString => EmptyString
  end.

(** A match of [/playAudio\((\d+)\)/] starting at the head of [s]: the
    captured digits. *)
Definition matchHere (s : string) : option string :=
  if Js.startsWith s "playAudio(" then
    let '(ds, rest) := takeDigits (drop 10 s) in
    if Js.truthy ds && Js.startsWith rest ")" then Some ds else None
  else None.

(** [attr.match(/playAudio\((\d+)\)/)]: the leftmost match, its group 1. *)
Fixpoint regexMatch (s : string) : option string :=
  match matchHere s with
  | Some ds => Some ds
  | None =>
      match s with
      | EmptyString => None
      | String _ s' => regexMatch s'
      end
  end.

(** [parseInt] on a string of decimal digits. *)
Definition parseInt (ds : string) : N :=
  match NilEmpty.uint_of_string ds with
  | Some d => N.of_uint d
  | None => 0
  end.

(** What [updatePlayButtons] extracts from a button's onclick attribute. *)
Definition parseOnclick (attr : string) : option N :=
  match regexMatch attr with
  | Some ds => Some (parseInt ds)
  | None => None
  end.

Inductive row_status := ClearAnalysis | IssuesFound.

(** [Math.round(x)] *)
Definition Math_round (x : Q) : Z := Qfloor (x + (1 # 2)).

(** [x || d] on an optional number. *)
Definition or_default (x : option Q) (d : Q) : Q :=
  match x with
  | Some q => if Qeq_bool q 0 then d else q
  | None => d
  end.

(** The parts of the row markup that depend on the analysis (the
    formatted date and the detail links aside). *)
Record row := Row {
  play_button : button;
  shown_name : string;
  active_stars : list bool;
  status : row_status
}.

Definition createAnalysisRow (a : record) : row :=
  let complianceScore := Math_round (or_default (compliance_score a) (8 # 10) * 5) in
  let issuesCount := match issues_count a with Some n => n | None => 0%N end in
  {| play_button :=
       {| onclick := parseOnclick (onclickAttr (rid a));
          playing := false; btn_icon := FaPlay; title := "Play audio" |};
     shown_name :=
       match rfilename a with
       | Some f => if Js.truthy f then f else "Unknown File"
       | None => "Unknown File"
       end;
     active_stars :=
       map (fun i => (Z.of_nat i <? complianceScore)%Z) (seq 0 5);
     status := if (issuesCount =? 0)%N then ClearAnalysis else IssuesFound |}.

(** The play buttons of the rows [displayAnalyses] appends for a list. *)
Definition buttonsOf (l : list record) : list button :=
  map (fun a => play_button (createAnalysisRow a)) l.


Definition sample_records : list record :=
  [Record_ 3 (Some "a.mp3") (Some (87 # 100)) (Some 0%N);
   Record_ 5 (Some "b.wav") (Some 0%Q) None;
   Record_ 12 None None (Some 2%N)].

End Rows.

(** ** A batch of files: the queue and its pollers together *)

Module Batch.

Import UploadQueue TaskTracker.

(** One [pollTaskStatus] closure; [live] while a poll of it is under way
    (its fetch is out, or its timer is pending).  The [item] of the
    closure is the markup of the queue item it was handed. *)
Record job := Job { closure : tracker; live : bool }.

(** A child of [#queue-list]: the item handed to the [k]-th poller, whose
    markup is whatever that poller wrote last, or an item no poller
    holds. *)
Inductive child :=
| Polled (k : nat)
| Plain (html : item_html).

(** The pollers stay alive when the items leave the list: they keep
    writing to the detached items. *)
Record batch := Batch_ {
  children : list child;            (* under #queue-list, in order *)
  container : display;              (* #upload-queue's style.display *)
  stored : list file;               (* uploadedFiles *)
  jobs : list job
}.

Definition child_html (b : batch) (c : child) : option item_html :=
  match c with
  | Polled k => (fun j => item (closure j)) <$> (jobs b !! k)
  | Plain html => Some html
  end.

(** The markup of the queue, as displayed. *)
Definition items (b : batch) : list item_html :=
  omap (child_html b) (children b).

(** The page as the queue functions see it (its notifications aside). *)
Definition queue (b : batch) : UploadQueue.state :=
  {| queueList := Some (items b); uploadQueue := Some (container b);
     uploadedFiles := stored b; notifications := [] |}.

(** The fetch of poller [k] comes back with [r]: its [poll] body runs. *)
Definition respond (k : nat) (r : response) (b : batch) : batch :=
  match jobs b !! k with
  | Some j =>
      if live j then
        let t := poll (fire_poll (closure j)) r in
        {| children := children b; container := container b;
           stored := stored b;
           jobs := <[k := Job t (polling t)]> (jobs b) |}
      else b
  | None => b
  end.

Definition is_clear (tm : timer) : bool := negb (is_poll tm).

Definition has_clear (t : tracker) : bool := existsb is_clear (timers t).

Fixpoint remove_clear (l : list timer) : list timer :=
  match l with
  | [] => []
  | tm :: l' => if is_clear tm then l' else tm :: remove_clear l'
  end.

Definition fired (j : job) : job :=
  {| closure :=
       {| fileName := fileName (closure j); attempts := attempts (closure j);
          item := item (closure j);
          timers := remove_clear (timers (closure j));
          notes := notes (closure j); console := console (closure j) |};
     live := live j |}.

(** The [setTimeout(() => clearUploadQueue(), 2000)] of poller [k] fires:
    [clearUploadQueue] runs on the page. *)
Definition fireClear (k : nat) (b : batch) : batch :=
  match jobs b !! k with
  | Some j =>
      if has_clear (closure j) then
        {| children := []; container := DisplayNone; stored := [];
           jobs := <[k := fired j]> (jobs b) |}
      else b
  | None => b
  end.

(** The page once [startAnalysis] has had every file of the queue
    accepted: each item reads "Processing..." and has its poller, whose
    first fetch is out. *)
Definition submitted (files : list file) : batch :=
  {| children := map Polled (seq 0 (length files));
     container := DisplayBlock;
     stored := files;
     jobs := map (fun f => Job (start (name f)) true) files |}.

Definition two_files : list file := [File "a.mp3" 1; File "b.mp3" 2].

End Batch.

(** * Properties *)

(** ** String primitives *)

Module JsFacts.

Import Js.

Lemma startsWith_spec (s t : string) :
  startsWith s t = true <-> exists post, s = (t ++ post)%string.
Proof.
  revert s; induction t as [|b t IH]; intros s; simpl.
  - destruct s; simpl; (split; [intros _; eexists; reflexivity | reflexivity]).
  - destruct s as [|a s]; simpl.
    + split; [discriminate | intros [post H]; discriminate].
    + rewrite andb_true_iff, IH, Ascii.eqb_eq. split.
      * intros [-> [post ->]]. exists post; reflexivity.
      * intros [post H]. injection H as -> ->. split; [reflexivity | eauto].
Qed.

Lemma includes_spec (s t : string) :
  includes s t = true <-> exists pre post, s = (pre ++ t ++ post)%string.
Proof.
  induction s as [|a s IH]; cbn [includes];
    rewrite orb_true_iff, startsWith_spec.
  - split.
    + intros [[post H] | H]; [|discriminate]. exists EmptyString, post. exact H.
    + intros [[|c pre] [post H]]; [left; exists post; exact H | discriminate].
  - rewrite IH. split.
    + intros [[post H] | [pre [post H]]].
      * exists EmptyString, post. exact H.
      * exists (String a pre), post. simpl. rewrite H. reflexivity.
    + intros [[|c pre] [post H]].
      * left. exists post. exact H.
      * right. simpl in H. injection H as -> ->. eauto.
Qed.

Lemma endsWith_spec (s t : string) :
  endsWith s t = true <-> exists pre, s = (pre ++ t)%string.
Proof.
  induction s as [|a s IH]; cbn [endsWith];
    rewrite orb_true_iff, String.eqb_eq.
  - split.
    + intros [-> | H]; [exists EmptyString; reflexivity | discriminate].
    + intros [[|c pre] H]; [left; exact H | discriminate].
  - rewrite IH. split.
    + intros [<- | [pre ->]]; [exists EmptyString | exists (String a pre)];
        reflexivity.
    + intros [[|c pre] H].
      * left. exact H.
      * right. simpl in H. injection H as -> ->. eauto.
Qed.

Lemma toLowerCase_app (a b : string) :
  toLowerCase (a ++ b) = (toLowerCase a ++ toLowerCase b)%string.
Proof. induction a as [|c a IH]; simpl; [|rewrite IH]; reflexivity. Qed.

(** A split of the lowercased string comes from a split of the string. *)
Lemma toLowerCase_split (s p q : string) :
  toLowerCase s = (p ++ q)%string ->
  exists a b, s = (a ++ b)%string /\ toLowerCase a = p /\ toLowerCase b = q.
Proof.
  revert s; induction p as [|c p IH]; intros s H; simpl in H.
  - exists EmptyString, s. auto.
  - destruct s as [|d s]; [discriminate|]. simpl in H.
    injection H as Hc Hs. destruct (IH _ Hs) as (a & b & -> & Ha & Hb).
    exists (String d a), b. simpl. rewrite Hc, Ha. auto.
Qed.

Lemma toLowerCase_idem (s : string) :
  toLowerCase (toLowerCase s) = toLowerCase s.
Proof.
  induction s as [|c s IH]; simpl; [reflexivity|]. rewrite IH. f_equal.
  destruct c as [[] [] [] [] [] [] [] []]; reflexivity.
Qed.

Lemma lower_char_digit (c : ascii) :
  is_digit (lower_char c) = true -> lower_char c = c.
Proof.
  destruct c as [[] [] [] [] [] [] [] []]; vm_compute; congruence.
Qed.

Lemma chars_app (a b : string) : chars (a ++ b) = chars a ++ chars b.
Proof. induction a as [|c a IH]; simpl; [|rewrite IH]; reflexivity. Qed.

(** A string of digits is the lowercase form of itself only. *)
Lemma toLowerCase_digits (s : string) :
  Forall (fun c => is_digit c = true) (chars (toLowerCase s)) ->
  toLowerCase s = s.
Proof.
  induction s as [|c s IH]; simpl; intros H; [reflexivity|].
  inversion H as [|? ? Hc Hs]; subst.
  rewrite (lower_char_digit _ Hc), (IH Hs). reflexivity.
Qed.

Lemma string_of_uint_digits (d : Decimal.uint) :
  Forall (fun c => is_digit c = true) (chars (NilEmpty.string_of_uint d)).
Proof. induction d; simpl; constructor; auto. Qed.

Lemma toString_digits (n : N) :
  Forall (fun c => is_digit c = true) (chars (toString n)).
Proof. apply string_of_uint_digits. Qed.

(** Searching a decimal numeral for the lowercased term is searching it
    for the term. *)
Lemma includes_toString_lower (n : N) (t : string) :
  includes (toString n) (toLowerCase t) = includes (toString n) t.
Proof.
  apply eq_true_iff_eq. rewrite !includes_spec. split.
  - intros (pre & post & H).
    assert (Hd : toLowerCase t = t).
    { apply toLowerCase_digits. pose proof (toString_digits n) as D.
      rewrite H, !chars_app in D.
      apply Forall_app in D as [_ D]. apply Forall_app in D as [D _]. exact D. }
    rewrite Hd in H. eauto.
  - intros (pre & post & H).
    assert (Hd : toLowerCase t = t).
    { pose proof (toString_digits n) as D.
      rewrite H, !chars_app in D.
      apply Forall_app in D as [_ D]. apply Forall_app in D as [D _].
      clear H. induction t as [|c t IH]; simpl; [reflexivity|].
      simpl in D. inversion D as [|? ? Hc Ht]; subst. rewrite (IH Ht). f_equal.
      revert Hc. clear.
      destruct c as [[] [] [] [] [] [] [] []]; vm_compute; congruence. }
    rewrite Hd. eauto.
Qed.

Lemma trimStart_empty (s : string) :
  trimStart s = EmptyString <-> Forall (fun c => is_ws c = true) (chars s).
Proof.
  induction s as [|c s IH]; simpl.
  - split; [constructor | reflexivity].
  - destruct (is_ws c) eqn:E.
    + rewrite IH. split; [constructor; assumption | ].
      intros H; inversion H; assumption.
    + split; [discriminate | intros H; inversion H; congruence].
Qed.

Lemma trimEnd_empty (s : string) :
  trimEnd s = EmptyString <-> Forall (fun c => is_ws c = true) (chars s).
Proof.
  induction s as [|c s IH]; simpl.
  - split; [constructor | reflexivity].
  - destruct (trimEnd s) eqn:E.
    + destruct (is_ws c) eqn:W.
      * split; [intros _; constructor; [assumption | apply IH; reflexivity] |
                reflexivity].
      * split; [discriminate | intros H; inversion H; congruence].
    + split; [discriminate|]. intros H; inversion H as [|? ? _ Hs]; subst.
      apply IH in Hs. discriminate.
Qed.

Lemma trimStart_suffix (s : string) :
  exists pre, s = (pre ++ trimStart s)%string /\
              Forall (fun c => is_ws c = true) (chars pre).
Proof.
  induction s as [|c s (pre & IH & Hp)]; simpl.
  - exists EmptyString. split; [reflexivity | constructor].
  - destruct (is_ws c) eqn:E.
    + exists (String c pre). simpl. split; [f_equal; exact IH | constructor; auto].
    + exists EmptyString. split; [reflexivity | constructor].
Qed.

(** [!term.trim()] holds exactly for the empty and the all-blank terms. *)
Lemma trim_falsy (s : string) :
  truthy (trim s) = false <-> Forall (fun c => is_ws c = true) (chars s).
Proof.
  unfold trim. split.
  - intros H. assert (E : trimEnd (trimStart s) = EmptyString)
      by (destruct (trimEnd (trimStart s)); [reflexivity | discriminate]).
    apply trimEnd_empty in E.
    destruct (trimStart_suffix s) as (pre & Hs & Hp).
    rewrite Hs, chars_app. apply Forall_app. split; assumption.
  - intros H. apply trimStart_empty in H. rewrite H. reflexivity.
Qed.

End JsFacts.

(** ** Upload queue *)

Module UploadQueueFacts.

Import UploadQueue.

Lemma isValidAudioFile_iff (f : file) :
  isValidAudioFile f = true <-> HasAllowedExtension (name f).
Proof.
  unfold isValidAudioFile, HasAllowedExtension. rewrite existsb_exists. split.
  - intros (ext & Hin & He). apply JsFacts.endsWith_spec in He as [pre He].
    exists ext, pre. split; assumption.
  - intros (ext & pre & Hin & He). exists ext. split; [exact Hin|].
    apply JsFacts.endsWith_spec. exists pre. exact He.
Qed.

Lemma isValidAudioFile_false_iff (f : file) :
  isValidAudioFile f = false <-> ~ HasAllowedExtension (name f).
Proof.
  rewrite <- isValidAudioFile_iff. destruct (isValidAudioFile f); split;
    congruence.
Qed.

(** The [forEach] loop: valid files extend the item list and the stored
    files, in order; each other file adds one rejection. *)
Lemma fold_addOne (files : list file) :
  forall items stored notes,
    fold_left addOne files (items, stored, notes) =
    (items ++ map createQueueItem (List.filter isValidAudioFile files),
     stored ++ List.filter isValidAudioFile files,
     notes ++ map rejection (List.filter invalid files)).
Proof.
  induction files as [|f files IH]; intros items stored notes; simpl.
  - rewrite !app_nil_r. reflexivity.
  - unfold invalid at 1. destruct (isValidAudioFile f) eqn:E; simpl; rewrite IH.
    + rewrite <- !app_assoc. reflexivity.
    + unfold showNotification. rewrite <- !app_assoc. reflexivity.
Qed.

(** C10: the extension check is case-insensitive.  A file is accepted
    exactly when its lowercased name ends with one of .mp3, .wav, .flac,
    .m4a, .ogg; so SONG.MP3 (of any size) is accepted and enters the
    queue of a page that shows the upload queue. *)
Theorem isValidAudioFile_case_insensitive :
  (forall f : file,
     isValidAudioFile f = true <->
     exists ext pre,
       In ext [".mp3"; ".wav"; ".flac"; ".m4a"; ".ogg"] /\
       Js.toLowerCase (name f) = (pre ++ ext)%string) /\
  (forall n : N,
     let song := File "SONG.MP3" n in
     isValidAudioFile song = true /\
     uploadedFiles (addFilesToQueue [song] page) = [song] /\
     queueList (addFilesToQueue [song] page) = Some [createQueueItem song] /\
     notifications (addFilesToQueue [song] page) = []).
Proof.
  split.
  - intros f. apply isValidAudioFile_iff.
  - intros n. repeat split; reflexivity.
Qed.

(** C7: on a page that has the queue list and its container, adding files
    stores exactly the valid ones, in arrival order, both in
    [uploadedFiles] and as rendered items; a file without an allowed
    extension creates neither and produces exactly one rejection
    notification. *)
Theorem addFilesToQueue_rejects_invalid (st : state) (files : list file) :
  mounted st ->
  let st' := addFilesToQueue files st in
  let valid := List.filter isValidAudioFile files in
  let rejected := List.filter invalid files in
  (forall f, In f rejected <->
             In f files /\ ~ HasAllowedExtension (name f)) /\
  (forall f, In f valid <-> In f files /\ HasAllowedExtension (name f)) /\
  uploadedFiles st' = uploadedFiles st ++ valid /\
  (exists items, queueList st = Some items /\
     queueList st' = Some (items ++ map createQueueItem valid)) /\
  notifications st' = notifications st ++ map rejection rejected.
Proof.
  intros [[items Hq] [disp Hu]] st' valid rejected.
  split; [|split].
  - intros f. unfold rejected. rewrite filter_In. unfold invalid.
    rewrite negb_true_iff, isValidAudioFile_false_iff. reflexivity.
  - intros f. unfold valid. rewrite filter_In, isValidAudioFile_iff.
    reflexivity.
  - unfold st', addFilesToQueue. rewrite Hq, Hu, fold_addOne. simpl.
    repeat split. exists items. split; reflexivity.
Qed.

Lemma addFilesToQueue_rejects_invalid_witness :
  uploadedFiles (addFilesToQueue sample_files page) =
    [File "a.mp3" 10; File "C.WAV" 7] /\
  notifications (addFilesToQueue sample_files page) =
    [rejection (File "notes.txt" 3); rejection (File "mp3" 1)].
Proof.
  assert (M : mounted page) by (split; eexists; reflexivity).
  destruct (addFilesToQueue_rejects_invalid page sample_files M)
    as (_ & _ & Hf & _ & Hn).
  split; [exact Hf | exact Hn].
Defined.

(** Without the queue list or its container in the page the function
    returns at once. *)
Lemma addFilesToQueue_unmounted (st : state) (files : list file) :
  queueList st = None \/ uploadQueue st = None ->
  addFilesToQueue files st = st.
Proof.
  unfold addFilesToQueue. intros [H | H]; rewrite H;
    [|destruct (queueList st)]; reflexivity.
Qed.

End UploadQueueFacts.

(** ** Task-status poller *)

Module TaskTrackerFacts.

Import UploadQueue TaskTracker.

Lemma poll_running (t : tracker) :
  (attempts t < maxAttempts)%nat ->
  poll t running = setTimeout APoll 1000 (incr_attempts t).
Proof.
  intros H. unfold poll, running.
  replace (attempts t <? maxAttempts)%nat with true
    by (symmetry; apply Nat.ltb_lt; exact H).
  reflexivity.
Qed.

Lemma poll_running_exhausted (t : tracker) :
  (maxAttempts <= attempts t)%nat ->
  poll t running = set_item (ItemTimeout (fileName t)) t.
Proof.
  intros H. unfold poll, running.
  replace (attempts t <? maxAttempts)%nat with false
    by (symmetry; apply Nat.ltb_ge; exact H).
  reflexivity.
Qed.

Lemma run_idle (t : tracker) (rs : list response) :
  polling t = false -> run t rs = t.
Proof. intros H. destruct rs; simpl; [|rewrite H]; reflexivity. Qed.

Lemma run_waiting_step (fname : string) (k : nat) (rs : list response) :
  (k < maxAttempts)%nat ->
  run (waiting fname k) (running :: rs) = run (waiting fname (S k)) rs.
Proof.
  intros H. cbn [run]. change (polling (waiting fname k)) with true.
  cbv iota. rewrite poll_running by exact H. reflexivity.
Qed.

Lemma run_waiting (fname : string) (k a : nat) (rs : list response) :
  (a + k <= maxAttempts)%nat ->
  run (waiting fname a) (repeat running k ++ rs) = run (waiting fname (a + k)) rs.
Proof.
  revert a; induction k as [|k IH]; intros a H.
  - rewrite Nat.add_0_r. reflexivity.
  - cbn [repeat app]. rewrite run_waiting_step by lia.
    rewrite IH by lia. f_equal. f_equal. lia.
Qed.

(** After the direct first call, [k] running answers leave the tracker
    waiting with [k] attempts counted. *)
Lemma pollTaskStatus_running (fname : string) (k : nat) (rs : list response) :
  (k < maxAttempts)%nat ->
  pollTaskStatus fname (repeat running (S k) ++ rs) =
  run (waiting fname (S k)) rs.
Proof.
  intros H. cbn [repeat app pollTaskStatus].
  change (poll (start fname) running) with (waiting fname 1).
  rewrite run_waiting by lia. reflexivity.
Qed.

Lemma pollTaskStatus_then (fname : string) (k : nat) (r : response)
  (rs : list response) :
  (k <= maxAttempts)%nat ->
  pollTaskStatus fname (repeat running k ++ r :: rs) =
  match k with
  | O => run (poll (start fname) r) rs
  | S _ => run (poll (fire_poll (waiting fname k)) r) rs
  end.
Proof.
  intros H. destruct k as [|k]; [reflexivity|].
  rewrite pollTaskStatus_running by (unfold maxAttempts in *; lia).
  reflexivity.
Qed.

(** C3 (as the script behaves): a "running" answer below 30 attempts
    counts one attempt and schedules exactly one re-poll after 1000 ms,
    touching nothing else; after the first call and up to 30 running
    answers the tracker is still waiting for its next poll; the 31st
    consecutive running answer ends it in the Timeout state, with no timer
    left, whatever answers would follow. *)
Theorem poll_running_until_31st (fname : string) :
  (forall t : tracker, (attempts t < 30)%nat ->
     let t' := poll t running in
     attempts t' = S (attempts t) /\
     timers t' = timers t ++ [Timer 1000 APoll] /\
     item t' = item t /\ notes t' = notes t /\ console t' = console t) /\
  (forall k : nat, (1 <= k <= 30)%nat ->
     pollTaskStatus fname (repeat running k) = waiting fname k) /\
  (forall rs : list response,
     let t := pollTaskStatus fname (repeat running 31 ++ rs) in
     t = timed_out fname /\ shown t = Some TimedOut /\ polling t = false).
Proof.
  split; [|split].
  - intros t H t'. unfold t'. rewrite poll_running by exact H.
    repeat split; reflexivity.
  - intros k [H1 H2]. destruct k as [|k]; [lia|].
    rewrite <- (app_nil_r (repeat running (S k))).
    rewrite pollTaskStatus_running by (unfold maxAttempts; lia).
    reflexivity.
  - intros rs t.
    assert (E : t = timed_out fname).
    { unfold t. change 31%nat with (30 + 1)%nat.
      rewrite repeat_app, <- app_assoc.
      rewrite pollTaskStatus_running by (unfold maxAttempts; lia).
      cbn [repeat app run]. change (polling (waiting fname 30)) with true.
      cbv iota. apply run_idle. reflexivity. }
    rewrite E. repeat split; reflexivity.
Qed.

Lemma poll_running_until_31st_witness :
  attempts (poll (start "song.mp3") running) = 1%nat /\
  pollTaskStatus "song.mp3" (repeat running 30) = waiting "song.mp3" 30 /\
  pollTaskStatus "song.mp3" (repeat running 31) = timed_out "song.mp3".
Proof.
  destruct (poll_running_until_31st "song.mp3") as (Hstep & Hwait & Hout).
  split; [|split].
  - apply (Hstep (start "song.mp3")). simpl. lia.
  - apply (Hwait 30%nat). lia.
  - pose proof (Hout []) as H. rewrite app_nil_r in H. apply H.
Defined.

(** C3 as stated fails twice: a "processing" answer is not re-polled but
    shown as Timeout at once, and after 30 consecutive running answers the
    tracker has not timed out, it waits for a 31st poll. *)
Lemma poll_processing_and_30_running :
  (let t := pollTaskStatus "song.mp3" [Body (Some "processing")] in
   shown t = Some TimedOut /\ attempts t = 0%nat /\ timers t = []) /\
  (let t := pollTaskStatus "song.mp3" (repeat running 30) in
   shown t = Some Processing /\ polling t = true /\
   timers t = [Timer 1000 APoll]).
Proof. split; repeat split; reflexivity. Qed.

(** C4 (what the script does on a failed poll): a response whose [ok] is
    false changes nothing at all, so the item keeps its "Processing..."
    markup, nothing is scheduled and nothing is shown; a rejected fetch or
    an unparsable body marks the item Error and writes to the console, but
    shows no notification. *)
Theorem poll_failure_paths (fname : string) :
  (forall (t : tracker) (code : N), poll t (HttpNotOk code) = t) /\
  (forall code : N,
     let t := pollTaskStatus fname [HttpNotOk code] in
     shown t = Some Processing /\ polling t = false /\ notes t = []) /\
  (forall t : tracker,
     let t1 := poll t FetchRejected in
     let t2 := poll t BodyNotJson in
     t1 = t2 /\ item t1 = ItemError (fileName t) /\
     timers t1 = timers t /\ notes t1 = notes t /\
     console t1 = console t ++ ["Error polling task status:"%string]).
Proof. repeat split; reflexivity. Qed.

(** One poller on its own: a "completed" answer writes the Completed
    markup, shows one success notification and schedules one
    [clearUploadQueue] after 2000 ms; a "failed" answer writes the Failed
    markup, shows one error notification and schedules nothing.  Neither
    schedules another poll: started by [pollTaskStatus], after [k <= 30]
    running answers, the tracker ends in that state and later answers are
    never consumed. *)
Lemma poll_completed_and_failed (fname : string) :
  (forall t : tracker,
     let t' := poll t completed in
     item t' = ItemCompleted (fileName t) /\
     notes t' = notes t ++
       [Notify ("Analysis completed for " ++ fileName t) NSuccess 3000] /\
     timers t' = timers t ++ [Timer 2000 AClearUploadQueue] /\
     attempts t' = attempts t /\ console t' = console t) /\
  (forall t : tracker,
     let t' := poll t failed in
     item t' = ItemFailed (fileName t) /\
     notes t' = notes t ++
       [Notify ("Analysis failed for " ++ fileName t) NError 3000] /\
     timers t' = timers t /\
     attempts t' = attempts t /\ console t' = console t) /\
  (forall (k : nat) (rs : list response), (k <= 30)%nat ->
     let t := pollTaskStatus fname (repeat running k ++ completed :: rs) in
     t = completed_after fname k /\ shown t = Some Completed /\
     polling t = false) /\
  (forall (k : nat) (rs : list response), (k <= 30)%nat ->
     let t := pollTaskStatus fname (repeat running k ++ failed :: rs) in
     t = failed_after fname k /\ shown t = Some Failed /\
     polling t = false).
Proof.
  split; [|split; [|split]].
  - intros t. repeat split; reflexivity.
  - intros t. repeat split; reflexivity.
  - intros k rs H t.
    assert (E : t = completed_after fname k).
    { unfold t. rewrite pollTaskStatus_then by exact H.
      destruct k; apply run_idle; reflexivity. }
    rewrite E. repeat split; reflexivity.
  - intros k rs H t.
    assert (E : t = failed_after fname k).
    { unfold t. rewrite pollTaskStatus_then by exact H.
      destruct k; apply run_idle; reflexivity. }
    rewrite E. repeat split; reflexivity.
Qed.

End TaskTrackerFacts.

(** ** Analysis table *)

Module ResultListFacts.

Import ResultList.

Local Open Scope Z_scope.

Lemma ceil_div_bounds (a : Z) :
  a <= itemsPerPage * ceil_div a itemsPerPage < a + itemsPerPage.
Proof.
  unfold ceil_div, itemsPerPage.
  pose proof (Z.div_mod (- a) 10 ltac:(lia)) as E.
  pose proof (Z.mod_pos_bound (- a) 10 ltac:(lia)) as B.
  lia.
Qed.

Lemma totalPages_ceiling (s : state) :
  Z.of_nat (length (filteredAnalyses s)) <= 10 * totalPages s
    < Z.of_nat (length (filteredAnalyses s)) + 10.
Proof. apply ceil_div_bounds. Qed.

Lemma totalPages_empty (s : state) :
  filteredAnalyses s = [] -> totalPages s = 0.
Proof. unfold totalPages. intros ->. reflexivity. Qed.

Lemma changePage_in_range (d : Z) (s : state) :
  1 <= currentPage s + d <= totalPages s ->
  changePage d s =
  {| allAnalyses := allAnalyses s;
     filteredAnalyses := filteredAnalyses s;
     currentPage := currentPage s + d;
     isShowingAll := isShowingAll s;
     rendered := rendered s ++
       displayAnalysesWithPagination (currentPage s + d) (filteredAnalyses s);
     analysisCount := analysisCount s;
     searchClearShown := searchClearShown s;
     notifications := notifications s |}.
Proof.
  intros [H1 H2]. unfold changePage.
  apply Z.leb_le in H1, H2. rewrite H1, H2. reflexivity.
Qed.

Lemma changePage_out_of_range (d : Z) (s : state) :
  ~ (1 <= currentPage s + d <= totalPages s) -> changePage d s = s.
Proof.
  intros H. unfold changePage.
  destruct (1 <=? currentPage s + d) eqn:E1;
    destruct (currentPage s + d <=? totalPages s) eqn:E2; try reflexivity.
  apply Z.leb_le in E1, E2. lia.
Qed.

Lemma page_ok_apply (s : state) (o : op) : page_ok s -> page_ok (apply s o).
Proof.
  unfold page_ok. intros H. destruct o as [l | t | | | d]; simpl; try lia.
  destruct (Z_le_dec 1 (currentPage s + d)) as [H1|H1];
    [destruct (Z_le_dec (currentPage s + d) (totalPages s)) as [H2|H2]|].
  - rewrite changePage_in_range by lia. unfold totalPages in *. simpl. lia.
  - rewrite changePage_out_of_range by lia. exact H.
  - rewrite changePage_out_of_range by lia. exact H.
Qed.

Lemma page_ok_fold (ops : list op) (s : state) :
  page_ok s -> page_ok (fold_left apply ops s).
Proof.
  revert s; induction ops as [|o ops IH]; intros s H; simpl; [exact H|].
  apply IH, page_ok_apply, H.
Qed.

Lemma includes_lower_iff (f term : string) :
  Js.includes (Js.toLowerCase f) (Js.toLowerCase term) = true <->
  ContainsIgnoringCase f term.
Proof.
  rewrite JsFacts.includes_spec. unfold ContainsIgnoringCase, EqualIgnoringCase.
  split.
  - intros (pre & post & H).
    apply JsFacts.toLowerCase_split in H as (a & b & -> & Ha & Hb).
    apply JsFacts.toLowerCase_split in Hb as (m & c & -> & Hm & Hc).
    exists a, m, c. split; [reflexivity | exact Hm].
  - intros (pre & mid & post & -> & H).
    exists (Js.toLowerCase pre), (Js.toLowerCase post).
    rewrite !JsFacts.toLowerCase_app, H. reflexivity.
Qed.

Lemma includes_id_iff (term : string) (a : analysis) :
  Js.includes (Js.toString (id a)) (Js.toLowerCase term) = true <->
  Substring term (Js.toString (id a)).
Proof.
  rewrite JsFacts.includes_toString_lower. apply JsFacts.includes_spec.
Qed.

Lemma matches_spec (term : string) (a : analysis) :
  term <> EmptyString ->
  matches term a = true <-> SpecMatch term a.
Proof.
  intros Hne. unfold matches, SpecMatch.
  rewrite orb_true_iff, includes_id_iff.
  destruct (filename a) as [f|] eqn:Ef.
  - replace (if Js.truthy f then Js.toLowerCase f else EmptyString)
      with (Js.toLowerCase f) by (destruct f; reflexivity).
    rewrite includes_lower_iff. split.
    + intros [H|H]; [left; exists f; auto | right; exact H].
    + intros [(f' & E & H)|H]; [left; congruence | right; exact H].
  - split.
    + intros [H|H]; [|right; exact H].
      destruct term; [congruence | discriminate].
    + intros [(f' & E & _)|H]; [discriminate | right; exact H].
Qed.

Lemma not_blank_not_empty (term : string) :
  ~ WhitespaceOnly term -> term <> EmptyString.
Proof. intros H ->. apply H. constructor. Qed.

(** C2: [performSearch] always leaves [currentPage] at 1 and the loaded
    records untouched.  For an empty or whitespace-only term the filtered
    list is the full list; for any other term it is the full list
    filtered, in order, by: the file name contains the term ignoring case,
    or the decimal id contains the term. *)
Theorem performSearch_filters (term : string) (s : state) :
  let s' := performSearch term s in
  currentPage s' = 1 /\
  allAnalyses s' = allAnalyses s /\
  ((WhitespaceOnly term /\ filteredAnalyses s' = allAnalyses s) \/
   (~ WhitespaceOnly term /\
    exists keep : analysis -> bool,
      (forall a, keep a = true <->
         (exists f, filename a = Some f /\ ContainsIgnoringCase f term) \/
         Substring term (Js.toString (id a))) /\
      filteredAnalyses s' = List.filter keep (allAnalyses s))).
Proof.
  intros s'. split; [reflexivity|]. split; [reflexivity|].
  unfold s', performSearch. cbn [filteredAnalyses].
  destruct (Js.truthy (Js.trim term)) eqn:E; cbn [negb].
  - right.
    assert (Hnb : ~ WhitespaceOnly term).
    { intros H. apply JsFacts.trim_falsy in H. congruence. }
    split; [exact Hnb|]. exists (matches term). split; [|reflexivity].
    intros a. apply matches_spec, not_blank_not_empty, Hnb.
  - left. split; [|reflexivity]. apply JsFacts.trim_falsy, E.
Qed.

(** The scenario of the specification: searching "a." among a.mp3 and
    b.wav keeps the first record and labels the count "1 of 2". *)
Example performSearch_scenario :
  let s := performSearch "a." (updateAnalysisTable two_records init) in
  filteredAnalyses s = [Analysis 1 (Some "a.mp3")] /\
  analysisCount s = Some (CountMatching 1 2) /\
  filteredAnalyses (performSearch "A.MP" s) = [Analysis 1 (Some "a.mp3")] /\
  filteredAnalyses (performSearch "2" s) = [Analysis 2 (Some "b.wav")] /\
  filteredAnalyses (performSearch "   " s) = two_records.
Proof. repeat split; reflexivity. Qed.

(** C5: with [totalPages] the ceiling of the filtered count over 10,
    [changePage] either moves to [currentPage + delta], which then lies in
    [1, totalPages], and renders that window; or, when
    [currentPage + delta] is outside [1, totalPages], returns the state
    unchanged, rendering nothing. *)
Theorem changePage_bounds (delta : Z) (s : state) :
  let n := Z.of_nat (length (filteredAnalyses s)) in
  let newPage := currentPage s + delta in
  let s' := changePage delta s in
  (n <= 10 * totalPages s < n + 10) /\
  ((1 <= newPage <= totalPages s /\
    currentPage s' = newPage /\
    1 <= currentPage s' <= totalPages s' /\
    filteredAnalyses s' = filteredAnalyses s /\
    allAnalyses s' = allAnalyses s /\
    rendered s' = rendered s ++
      displayAnalysesWithPagination newPage (filteredAnalyses s)) \/
   (~ (1 <= newPage <= totalPages s) /\ s' = s)).
Proof.
  intros n newPage s'. split; [apply totalPages_ceiling|].
  destruct (Z_le_dec 1 newPage) as [H1|H1];
    [destruct (Z_le_dec newPage (totalPages s)) as [H2|H2]|].
  - left. unfold s'. rewrite changePage_in_range by (unfold newPage in *; lia).
    unfold totalPages in *. cbn. repeat split; try reflexivity; lia.
  - right. split; [lia|]. apply changePage_out_of_range.
    unfold newPage in *; lia.
  - right. split; [lia|]. apply changePage_out_of_range.
    unfold newPage in *; lia.
Qed.

(** The pagination scenario of the specification: 12 records, page 1
    shows 10, page 2 shows 2, and a further step forward does nothing. *)
Example changePage_scenario :
  let s1 := showAllAnalyses (updateAnalysisTable (numbered 12) init) in
  let s2 := changePage 1 s1 in
  totalPages s1 = 2 /\
  currentPage s2 = 2 /\
  List.last (rendered s1) HidePagination = UpdatePagination 12 1 /\
  rendered s2 = rendered s1 ++
    [DisplayAnalyses (skipn 10 (numbered 12)); UpdatePagination 12 2] /\
  changePage 1 s2 = s2 /\
  changePage (-2) s2 = s2.
Proof. repeat split; reflexivity. Qed.

(** C9: in every state the table can reach, [currentPage >= 1] (and at
    most [totalPages] once there is a page).  When the filtered list is
    empty, [totalPages] is 0, [currentPage] is 1 and [changePage] is a
    no-op for every delta. *)
Theorem currentPage_at_least_1 (ops : list op) :
  let s := run ops in
  1 <= currentPage s <= Z.max 1 (totalPages s) /\
  (filteredAnalyses s = [] ->
   totalPages s = 0 /\ currentPage s = 1 /\
   forall delta : Z, changePage delta s = s).
Proof.
  intros s.
  assert (Hok : page_ok s).
  { unfold s, run. apply page_ok_fold. unfold page_ok. cbn. lia. }
  split; [exact Hok|]. intros He.
  pose proof (totalPages_empty s He) as Ht. unfold page_ok in Hok.
  rewrite Ht in Hok. split; [exact Ht|]. split; [lia|].
  intros delta. apply changePage_out_of_range. lia.
Qed.

Lemma currentPage_at_least_1_witness :
  let s := run [Hydrate (numbered 12); ShowAll; ChangePage 1; Search "zzz"] in
  currentPage s = 1 /\ changePage 1 s = s /\ changePage (-1) s = s.
Proof.
  intros s.
  destruct (currentPage_at_least_1
              [Hydrate (numbered 12); ShowAll; ChangePage 1; Search "zzz"])
    as [_ H].
  destruct (H eq_refl) as (_ & Hp & Hc).
  split; [exact Hp|]. split; apply Hc.
Defined.

End ResultListFacts.

(** ** Global audio player *)

Module AudioPlayerFacts.

Import AudioPlayer.

Lemma alter_snoc {A} (f : A -> A) (l : list A) (x : A) :
  alter f (length l) (l ++ [x]) = l ++ [f x].
Proof.
  induction l as [|y l IH]; simpl; [reflexivity|]. f_equal. exact IH.
Qed.

Lemma stopCurrent_length (s : state) :
  length (audios (stopCurrent s)) = length (audios s).
Proof.
  unfold stopCurrent. destruct (currentAudio s); simpl; [|reflexivity].
  apply length_alter.
Qed.

Lemma stopCurrent_current (s : state) : currentAudio (stopCurrent s) = None.
Proof.
  unfold stopCurrent. destruct (currentAudio s) eqn:E; [reflexivity | exact E].
Qed.

(** Once the current object is paused, no object is left playing. *)
Lemma stopCurrent_all_paused (s : state) :
  single_active s ->
  forall h a, audios (stopCurrent s) !! h = Some a -> paused a = true.
Proof.
  intros Hs h a Hl. unfold stopCurrent in Hl.
  destruct (currentAudio s) as [h0|] eqn:Ec; simpl in Hl.
  - destruct (decide (h0 = h)) as [->|Hne].
    + rewrite list_lookup_alter_eq in Hl.
      destruct (audios s !! h); simpl in Hl; [|discriminate].
      injection Hl as <-. reflexivity.
    + rewrite list_lookup_alter_ne in Hl by exact Hne.
      destruct (paused a) eqn:Ep; [reflexivity|].
      specialize (Hs h a Hl Ep). congruence.
  - destruct (paused a) eqn:Ep; [reflexivity|].
    specialize (Hs h a Hl Ep). congruence.
Qed.

(** [playAudio] in one piece, over the state left by its first block. *)
Lemma playAudio_unfold (i : N) (s : state) :
  let s0 := stopCurrent s in
  let h := length (audios s) in
  playAudio i s =
  {| currentAudio := Some h;
     currentAnalysisId := Some i;
     audios := audios s0 ++ [started_audio i];
     buttons := map (updateButton (Some i) SPlaying) (buttons s0);
     playerShown := true;
     nowPlaying := Some i;
     log := log s0 ++ [EUpdateButtons (Some i) SPlaying; ENewAudio h i;
                       EShowPlayer i; EWatchdog h 10000; EPlay h] |}.
Proof.
  intros s0 h. unfold playAudio, play, armWatchdog, showGlobalAudioPlayer,
    newAudio, updatePlayButtons. cbn -[stopCurrent].
  fold s0. rewrite alter_snoc. unfold h.
  rewrite <- (stopCurrent_length s). fold s0.
  rewrite <- !app_assoc. reflexivity.
Qed.

Lemma playAudio_single_active (i : N) (s : state) :
  single_active s -> single_active (playAudio i s).
Proof.
  intros Hs h a. rewrite playAudio_unfold. cbn -[stopCurrent].
  intros Hl Hp.
  apply lookup_app_Some in Hl as [Hl'|[Hge Hl']].
  - rewrite (stopCurrent_all_paused s Hs h a Hl') in Hp. discriminate.
  - rewrite stopCurrent_length in Hge, Hl'.
    destruct (h - length (audios s))%nat as [|k] eqn:E; [|destruct k; discriminate].
    f_equal. lia.
Qed.

Lemma stopCurrent_buttons (s : state) : buttons (stopCurrent s) = buttons s.
Proof. unfold stopCurrent. destruct (currentAudio s); reflexivity. Qed.

(** [playAudio] when the current object is the newest one. *)
Lemma playAudio_over_current (i : N) (s : state) (l : list audio) (a : audio) :
  currentAudio s = Some (length l) ->
  audios s = l ++ [a] ->
  let h := length l in
  playAudio i s =
  {| currentAudio := Some (S h);
     currentAnalysisId := Some i;
     audios := l ++ [set_paused true a; started_audio i];
     buttons := map (updateButton (Some i) SPlaying) (buttons s);
     playerShown := true;
     nowPlaying := Some i;
     log := log s ++ [EPause h; EUpdateButtons (Some i) SPlaying;
                      ENewAudio (S h) i; EShowPlayer i;
                      EWatchdog (S h) 10000; EPlay (S h)] |}.
Proof.
  intros Hc Ha h. rewrite playAudio_unfold. unfold stopCurrent. rewrite Hc.
  cbn. rewrite Ha, alter_snoc, length_app. cbn [length].
  replace (length l + 1)%nat with (S h) by (unfold h; lia).
  rewrite <- !app_assoc. reflexivity.
Qed.

Lemma updateButton_twice (i j : N) (b : button) :
  updateButton (Some j) SPlaying (updateButton (Some i) SPlaying b) =
  now_playing j b.
Proof.
  unfold updateButton, now_playing, button_is.
  destruct b as [[n|] p ic ti]; cbn;
    [destruct (n =? i)%N; cbn; destruct (n =? j)%N | ]; reflexivity.
Qed.

Lemma now_playing_onclick (j : N) (b : button) :
  onclick (now_playing j b) = onclick b.
Proof. unfold now_playing. destruct (button_is (Some j) b); reflexivity. Qed.

Lemma now_playing_playing (j : N) (b : button) :
  playing (now_playing j b) = true <-> onclick b = Some j.
Proof.
  unfold now_playing, button_is. destruct b as [[n|] p ic ti]; cbn.
  - destruct (n =? j)%N eqn:E; cbn.
    + apply N.eqb_eq in E. subst. split; reflexivity.
    + apply N.eqb_neq in E. split; [discriminate | congruence].
  - split; discriminate.
Qed.

Lemma now_playing_other (i j : N) (b : button) :
  i <> j -> onclick b = Some i ->
  playing (now_playing j b) = false /\ btn_icon (now_playing j b) = FaPlay.
Proof.
  intros Hne Ho. unfold now_playing, button_is. rewrite Ho.
  destruct (i =? j)%N eqn:E; [apply N.eqb_eq in E; contradiction|].
  split; reflexivity.
Qed.

Lemma single_active_alter (f : audio -> audio) (h0 : nat) (s s' : state) :
  (forall a, paused (f a) = paused a) ->
  audios s' = alter f h0 (audios s) ->
  currentAudio s' = currentAudio s ->
  single_active s -> single_active s'.
Proof.
  intros Hf Ha Hc Hs h a. rewrite Ha, Hc. intros Hl Hp.
  destruct (decide (h0 = h)) as [->|Hne].
  - rewrite list_lookup_alter_eq in Hl.
    destruct (audios s !! h) as [a0|] eqn:E; simpl in Hl; [|discriminate].
    injection Hl as <-. rewrite Hf in Hp. exact (Hs h a0 E Hp).
  - rewrite list_lookup_alter_ne in Hl by exact Hne. exact (Hs h a Hl Hp).
Qed.

Lemma mediaProgress_single_active (h : nat) (t : Q) (d : option Q) (s : state) :
  single_active s -> single_active (mediaProgress h t d s).
Proof.
  apply (single_active_alter (set_media t d) h); reflexivity.
Qed.

Lemma seekAudio_single_active (p : Q) (s : state) :
  single_active s -> single_active (seekAudio p s).
Proof.
  intros Hs. unfold seekAudio.
  destruct (currentAudio s) as [h|]; [|exact Hs].
  destruct (audios s !! h) as [a|]; [|exact Hs].
  destruct (known_duration a) as [d|]; [|exact Hs].
  destruct (seekTime p d) as [t|]; [|exact Hs].
  revert Hs. apply (single_active_alter (assign_time t) h); try reflexivity.
  intros a0. unfold assign_time. destruct (duration a0); reflexivity.
Qed.

Lemma togglePlayPause_single_active (s : state) :
  single_active s -> single_active (togglePlayPause s).
Proof.
  intros Hs. unfold togglePlayPause.
  destruct (currentAudio s) as [h0|] eqn:Ec; [|exact Hs].
  destruct (audios s !! h0) as [a0|] eqn:El; [|exact Hs].
  assert (K : forall b h a,
             alter (set_paused b) h0 (audios s) !! h = Some a ->
             paused a = false -> Some h0 = Some h).
  { intros b h a Hl Hp. destruct (decide (h0 = h)) as [->|Hne]; [reflexivity|].
    rewrite list_lookup_alter_ne in Hl by exact Hne.
    rewrite <- Ec. exact (Hs h a Hl Hp). }
  destruct (paused a0); intros h a; cbn; rewrite Ec; apply K.
Qed.

Lemma stopAudio_single_active (s : state) :
  single_active s -> single_active (stopAudio s).
Proof.
  intros Hs. unfold stopAudio.
  destruct (currentAudio s) as [h0|] eqn:Ec; [|exact Hs].
  intros h a. cbn. intros Hl Hp. exfalso.
  destruct (decide (h0 = h)) as [->|Hne].
  - rewrite !list_lookup_alter_eq in Hl.
    destruct (audios s !! h); simpl in Hl; [|discriminate].
    injection Hl as <-. discriminate.
  - rewrite !list_lookup_alter_ne in Hl by exact Hne.
    specialize (Hs h a Hl Hp). congruence.
Qed.

(** The controller keeps at most one object playing, whatever it is asked. *)
Lemma single_active_calls (calls : list call) (s : state) :
  single_active s -> single_active (fold_left apply calls s).
Proof.
  revert s; induction calls as [|c calls IH]; intros s Hs; simpl; [exact Hs|].
  apply IH. destruct c; simpl.
  - apply playAudio_single_active, Hs.
  - apply togglePlayPause_single_active, Hs.
  - apply stopAudio_single_active, Hs.
  - apply seekAudio_single_active, Hs.
Qed.

Lemma single_active_init (bs : list button) : single_active (init bs).
Proof. intros h a Hl. discriminate. Qed.

Local Open Scope Q_scope.










End AudioPlayerFacts.

(** ** Task-status poller: behaviour over whole runs *)

Module TaskTrackerRuns.

Import UploadQueue TaskTracker.

Lemma status_is_eq (st : option string) (s : string) :
  status_is st s = true <-> st = Some s.
Proof.
  destruct st as [x|]; simpl.
  - rewrite String.eqb_eq. split; congruence.
  - split; discriminate.
Qed.

(** One round of [poll]: either the answer is "running" below the budget
    and a re-poll is scheduled, or nothing more is scheduled to poll. *)
Lemma poll_cases (t : tracker) (r : response) :
  timers t = [] ->
  (r = running /\ (attempts t < maxAttempts)%nat /\
   poll t r = setTimeout APoll 1000 (incr_attempts t)) \/
  (polling (poll t r) = false /\
   (length (notes (poll t r)) <= S (length (notes t)))%nat /\
   (length (timers (poll t r)) <= 1)%nat /\
   attempts (poll t r) = attempts t /\
   fileName (poll t r) = fileName t).
Proof.
  intros Ht. destruct r as [| code | | st]; cbn [poll].
  - right. cbn. rewrite Ht. repeat split; cbn; lia.
  - right. unfold polling. rewrite Ht. repeat split; cbn; lia.
  - right. cbn. rewrite Ht. repeat split; cbn; lia.
  - destruct (status_is st "completed") eqn:Ec.
    { right. unfold polling. cbn. rewrite Ht. cbn.
      unfold showNotification. rewrite length_app. cbn.
      repeat split; lia. }
    destruct (status_is st "failed") eqn:Ef.
    { right. unfold polling. cbn. rewrite Ht. cbn.
      unfold showNotification. rewrite length_app. cbn.
      repeat split; lia. }
    destruct (status_is st "running") eqn:Er; cbn [andb].
    + destruct (attempts t <? maxAttempts)%nat eqn:Ea.
      * left. apply status_is_eq in Er. subst st.
        apply Nat.ltb_lt in Ea. repeat split; assumption.
      * right. unfold polling. cbn. rewrite Ht. repeat split; cbn; lia.
    + right. unfold polling. cbn. rewrite Ht. repeat split; cbn; lia.
Qed.

Lemma run_app (t : tracker) (l l' : list response) :
  run t (l ++ l') = run (run t l) l'.
Proof.
  revert t; induction l as [|r l IH]; intros t; cbn [app run]; [reflexivity|].
  destruct (polling t) eqn:E; [apply IH|].
  symmetry. apply TaskTrackerFacts.run_idle, E.
Qed.

Lemma pollTaskStatus_app (fname : string) (l l' : list response) :
  l <> [] ->
  pollTaskStatus fname (l ++ l') = run (pollTaskStatus fname l) l'.
Proof.
  destruct l as [|r l]; [congruence|]. intros _. cbn [app pollTaskStatus].
  apply run_app.
Qed.

(** From a waiting tracker: the run is still polling only if every answer
    was "running" and the budget was not used up. *)
Lemma run_waiting_polling (fname : string) (rs : list response) :
  forall a, (1 <= a <= maxAttempts)%nat ->
  polling (run (waiting fname a) rs) = true ->
  Forall (fun r => r = running) rs /\ (a + length rs <= maxAttempts)%nat.
Proof.
  induction rs as [|r rs IH]; intros a Ha Hp.
  - split; [constructor | cbn; lia].
  - cbn [run] in Hp. change (polling (waiting fname a)) with true in Hp.
    cbv iota in Hp.
    destruct (poll_cases (fire_poll (waiting fname a)) r eq_refl)
      as [(-> & Hlt & E)|(Hnp & _)].
    + rewrite E in Hp.
      change (setTimeout APoll 1000 (incr_attempts (fire_poll (waiting fname a))))
        with (waiting fname (S a)) in Hp.
      cbn in Hlt. destruct (IH (S a) ltac:(lia) Hp) as [HF Hl].
      split; [constructor; [reflexivity | exact HF] | cbn; lia].
    + rewrite (TaskTrackerFacts.run_idle _ rs Hnp) in Hp. congruence.
Qed.

(** The bounds every tracker state along a run satisfies. *)
Lemma run_bounded (rs : list response) :
  forall t : tracker,
    (attempts t <= maxAttempts)%nat ->
    (length (notes t) <= 1)%nat ->
    (length (timers t) <= 1)%nat ->
    (polling t = true -> notes t = [] /\ timers t = [Timer 1000 APoll]) ->
    let t' := run t rs in
    (attempts t' <= maxAttempts)%nat /\ (length (notes t') <= 1)%nat /\
    (length (timers t') <= 1)%nat /\ fileName t' = fileName t.
Proof.
  induction rs as [|r rs IH]; intros t Ha Hn Ht Hp; cbn [run].
  - repeat split; assumption.
  - destruct (polling t) eqn:E; [|repeat split; assumption].
    destruct (Hp eq_refl) as [Hn0 Ht0].
    assert (Hf : timers (fire_poll t) = []) by (cbn; rewrite Ht0; reflexivity).
    destruct (poll_cases (fire_poll t) r Hf)
      as [(-> & Hlt & Ep)|(Hnp & Hn' & Ht' & Ha' & Hf')].
    + rewrite Ep. cbn in Hlt.
      apply (IH (setTimeout APoll 1000 (incr_attempts (fire_poll t)))).
      * cbn. unfold maxAttempts in *. lia.
      * cbn. exact Hn.
      * cbn. rewrite Ht0. cbn. lia.
      * intros _. cbn. rewrite Hn0, Ht0. split; reflexivity.
    + rewrite (TaskTrackerFacts.run_idle _ rs Hnp).
      cbn in Hn', Ha', Hf'. rewrite Hn0 in Hn'. cbn in Hn'.
      repeat split; try assumption; lia.
Qed.

End TaskTrackerRuns.

Module TaskTrackerRunFacts.

Import UploadQueue TaskTracker TaskTrackerOutcome TaskTrackerRuns.

Lemma polling_only_running (fname : string) (rs : list response) :
  polling (pollTaskStatus fname rs) = true ->
  rs <> [] /\ (length rs <= 30)%nat /\ Forall (fun r => r = running) rs.
Proof.
  destruct rs as [|r rs]; [discriminate|]. cbn [pollTaskStatus]. intros Hp.
  split; [discriminate|].
  destruct (poll_cases (start fname) r eq_refl) as [(-> & _ & E)|(Hnp & _)].
  - rewrite E in Hp.
    change (setTimeout APoll 1000 (incr_attempts (start fname)))
      with (waiting fname 1) in Hp.
    apply run_waiting_polling in Hp as [HF Hl]; [|unfold maxAttempts; lia].
    unfold maxAttempts in Hl. split; [cbn; lia|].
    constructor; [reflexivity | exact HF].
  - rewrite (TaskTrackerFacts.run_idle _ rs Hnp) in Hp. congruence.
Qed.

Lemma all_running_repeat (rs : list response) :
  Forall (fun r => r = running) rs -> rs = repeat running (length rs).
Proof.
  induction 1 as [|r rs Hr _ IH]; [reflexivity|]. cbn. rewrite Hr. f_equal.
  exact IH.
Qed.

(** X1.  A tracker is waiting for another poll exactly when it has
    received between 1 and 30 answers, all of them "running". *)
Theorem pollTaskStatus_polling_iff (fname : string) (rs : list response) :
  polling (pollTaskStatus fname rs) = true <->
  rs <> [] /\ (length rs <= 30)%nat /\ Forall (fun r => r = running) rs.
Proof.
  split; [apply polling_only_running|].
  intros (Hne & Hl & HF). rewrite (all_running_repeat rs HF).
  destruct (length rs) as [|k] eqn:E.
  - destruct rs; [congruence | discriminate].
  - rewrite <- (app_nil_r (repeat running (S k))).
    rewrite TaskTrackerFacts.pollTaskStatus_running
      by (unfold maxAttempts; lia).
    reflexivity.
Qed.

Lemma pollTaskStatus_absorbs (fname : string) (rs more : list response) :
  rs <> [] -> polling (pollTaskStatus fname rs) = false ->
  pollTaskStatus fname (rs ++ more) = pollTaskStatus fname rs.
Proof.
  intros Hne Hp. rewrite pollTaskStatus_app by exact Hne.
  apply TaskTrackerFacts.run_idle, Hp.
Qed.

(** X2.  Whatever the status endpoint answers, a tracker counts at most 30
    attempts, shows at most one notification, has at most one timer
    pending, and never asks for more than 31 answers. *)
Theorem pollTaskStatus_bounds (fname : string) (rs : list response) :
  let t := pollTaskStatus fname rs in
  (attempts t <= 30)%nat /\ (length (notes t) <= 1)%nat /\
  (length (timers t) <= 1)%nat /\ fileName t = fname /\
  t = pollTaskStatus fname (firstn 31 rs).
Proof.
  intros t.
  assert (B : (attempts t <= 30)%nat /\ (length (notes t) <= 1)%nat /\
              (length (timers t) <= 1)%nat /\ fileName t = fname).
  { unfold t. destruct rs as [|r rs]; [cbn; repeat split; lia|].
    cbn [pollTaskStatus].
    destruct (poll_cases (start fname) r eq_refl)
      as [(-> & _ & E)|(Hnp & Hn & Ht & Ha & Hf)].
    - rewrite E.
      change (setTimeout APoll 1000 (incr_attempts (start fname)))
        with (waiting fname 1).
      apply (run_bounded rs (waiting fname 1)); cbn;
        try (unfold maxAttempts; lia). intros _. split; reflexivity.
    - rewrite (TaskTrackerFacts.run_idle _ rs Hnp).
      cbn in Hn, Ha, Hf. repeat split; try assumption; lia. }
  destruct B as (Ha & Hn & Ht & Hf). repeat split; try assumption.
  unfold t. rewrite <- (firstn_skipn 31 rs) at 1.
  destruct (firstn 31 rs) as [|r l] eqn:E.
  - destruct rs; [reflexivity | discriminate].
  - rewrite pollTaskStatus_app by discriminate.
    destruct (polling (pollTaskStatus fname (r :: l))) eqn:Ep.
    + apply polling_only_running in Ep as (_ & Hl & _).
      rewrite <- E in Hl. rewrite length_firstn in Hl.
      assert (Hs : skipn 31 rs = []) by (apply skipn_all2; lia).
      rewrite Hs. reflexivity.
    + apply TaskTrackerFacts.run_idle, Ep.
Qed.

Lemma decisive_not_polling (t : tracker) (r : response) :
  timers t = [] -> r <> running \/ attempts t = maxAttempts ->
  polling (poll t r) = false.
Proof.
  intros Ht Hd. destruct (poll_cases t r Ht) as [(-> & Hlt & _)|(Hnp & _)];
    [|exact Hnp]. destruct Hd as [Hd|Hd]; [congruence | lia].
Qed.

Lemma decisive_outcome (t : tracker) (r : response) :
  item t = ItemProcessing (fileName t) ->
  r <> running \/ attempts t = maxAttempts ->
  shown (poll t r) = Some (outcome r) /\
  notes (poll t r) = notes t ++ announced (fileName t) r /\
  attempts (poll t r) = attempts t.
Proof.
  intros Hi Hd. unfold announced.
  destruct r as [| code | | st]; cbn [poll outcome].
  - cbn. rewrite app_nil_r. auto.
  - unfold shown. rewrite Hi, app_nil_r. auto.
  - cbn. rewrite app_nil_r. auto.
  - destruct (status_is st "completed") eqn:Ec; [cbn; auto|].
    destruct (status_is st "failed") eqn:Ef; [cbn; auto|].
    destruct (status_is st "running") eqn:Er; cbn [andb].
    + apply status_is_eq in Er. subst st.
      destruct Hd as [Hd|Hd]; [exfalso; apply Hd; reflexivity|].
      rewrite Hd, Nat.ltb_irrefl. cbn. rewrite app_nil_r. auto.
    + cbn. rewrite app_nil_r. auto.
Qed.

(** X4.  The first answer that is not "running" (or the 31st answer
    altogether) decides a run: after [k <= 30] running answers and a
    deciding answer [r], the tracker has stopped, counts [k] attempts,
    shows the status that [r] stands for and has announced it at most
    once; the answers after [r] play no part.  A response whose [ok] is
    false leaves the item on "Processing..." for good. *)
Theorem first_decisive_response (fname : string) (k : nat) (r : response)
  (rest : list response) :
  (k <= 30)%nat -> r <> running \/ k = 30%nat ->
  let t := pollTaskStatus fname (repeat running k ++ r :: rest) in
  polling t = false /\ attempts t = k /\
  shown t = Some (outcome r) /\ notes t = announced fname r.
Proof.
  intros Hk Hd t. unfold t.
  rewrite TaskTrackerFacts.pollTaskStatus_then by exact Hk.
  destruct k as [|k].
  - assert (Hd' : r <> running \/ attempts (start fname) = maxAttempts)
      by (destruct Hd as [Hd|Hd]; [left; exact Hd | discriminate]).
    pose proof (decisive_not_polling (start fname) r eq_refl Hd') as Hp.
    rewrite (TaskTrackerFacts.run_idle _ rest Hp).
    destruct (decisive_outcome (start fname) r eq_refl Hd') as (Hs & Hn & Ha).
    repeat split; assumption.
  - set (w := fire_poll (waiting fname (S k))).
    assert (Hd' : r <> running \/ attempts w = maxAttempts)
      by (destruct Hd as [Hd|Hd]; [left; exact Hd | right; exact Hd]).
    pose proof (decisive_not_polling w r eq_refl Hd') as Hp.
    rewrite (TaskTrackerFacts.run_idle _ rest Hp).
    destruct (decisive_outcome w r eq_refl Hd') as (Hs & Hn & Ha).
    repeat split; assumption.
Qed.

Lemma first_decisive_response_witness :
  let t := pollTaskStatus "song.mp3"
             (repeat running 2 ++ HttpNotOk 503 :: [completed]) in
  polling t = false /\ attempts t = 2%nat /\
  shown t = Some Processing /\ notes t = [].
Proof.
  apply (first_decisive_response "song.mp3" 2 (HttpNotOk 503) [completed]);
    [lia | left; discriminate].
Defined.

End TaskTrackerRunFacts.

(** ** Upload queue: sequences of calls, and submission *)

Module SubmissionFacts.

Import UploadQueue Submission.

(** X5.  Adding files in two calls is adding them in one: the queue
    accumulates, whatever it held and whether or not the page shows it. *)
Theorem addFilesToQueue_app (l1 l2 : list file) (s : state) :
  addFilesToQueue l2 (addFilesToQueue l1 s) = addFilesToQueue (l1 ++ l2) s.
Proof.
  unfold addFilesToQueue at 2 3.
  destruct (queueList s) as [items|] eqn:Eq; [|unfold addFilesToQueue; rewrite Eq; reflexivity].
  destruct (uploadQueue s) as [disp|] eqn:Eu;
    [|unfold addFilesToQueue; rewrite Eq, Eu; reflexivity].
  rewrite !UploadQueueFacts.fold_addOne. unfold addFilesToQueue.
  cbn [queueList uploadQueue uploadedFiles notifications].
  rewrite UploadQueueFacts.fold_addOne.
  rewrite !List.filter_app, !map_app, !app_assoc. f_equal.
  rewrite !length_app, !length_map.
  set (a := length items). set (b := length (List.filter isValidAudioFile l1)).
  set (c := length (List.filter isValidAudioFile l2)).
  destruct (0 <? a + b)%nat eqn:E1.
  - apply Nat.ltb_lt in E1.
    replace (0 <? a + b + c)%nat with true
      by (symmetry; apply Nat.ltb_lt; lia).
    reflexivity.
  - reflexivity.
Qed.

Lemma aligned_page : aligned page.
Proof. repeat split. constructor. Qed.

Lemma aligned_qapply (s : state) (o : qop) : aligned s -> aligned (qapply s o).
Proof.
  intros (Hq & Hu & Hv). destruct o as [files|]; cbn [qapply].
  - unfold addFilesToQueue. rewrite Hq, Hu, UploadQueueFacts.fold_addOne.
    unfold aligned. cbn [queueList uploadQueue uploadedFiles].
    rewrite <- map_app, length_map. split; [reflexivity|]. split.
    + destruct (0 <? length (uploadedFiles s ++ List.filter isValidAudioFile files))%nat
        eqn:E; [reflexivity|].
      apply Nat.ltb_ge in E. rewrite length_app in E.
      replace (0 <? length (uploadedFiles s))%nat with false
        by (symmetry; apply Nat.ltb_ge; lia).
      reflexivity.
    + apply Forall_app. split; [exact Hv|].
      apply List.Forall_forall. intros f Hf. apply filter_In in Hf. apply Hf.
  - unfold clearUploadQueue, aligned. rewrite Hq, Hu. cbn.
    repeat split. constructor.
Qed.

Lemma aligned_fold (ops : list qop) (s : state) :
  aligned s -> aligned (fold_left qapply ops s).
Proof.
  revert s; induction ops as [|o ops IH]; intros s H; cbn; [exact H|].
  apply IH, aligned_qapply, H.
Qed.

(** X6.  However files are added and the queue cleared, starting from an
    empty page: the rendered items are exactly the items of the stored
    files, in the same order; only files with an allowed extension are
    stored; and the queue container is displayed exactly when the queue
    is not empty. *)
Theorem queue_stays_aligned (ops : list qop) :
  let s := fold_left qapply ops page in
  queueList s = Some (map createQueueItem (uploadedFiles s)) /\
  uploadQueue s =
    Some (if (0 <? length (uploadedFiles s))%nat
          then DisplayBlock else DisplayNone) /\
  Forall (fun f => HasAllowedExtension (name f)) (uploadedFiles s).
Proof.
  intros s. destruct (aligned_fold ops page aligned_page) as (Hq & Hu & Hv).
  fold s in Hq, Hu, Hv. split; [exact Hq|]. split; [exact Hu|].
  eapply List.Forall_impl; [|exact Hv].
  intros f. apply UploadQueueFacts.isValidAudioFile_iff.
Qed.

(** The loop in closed form. *)
Lemma submitLoop_spec (prio : string) (respond : nat -> submit_outcome)
  (files : list file) :
  forall (i : nat) (items : list item_html) (out : outputs),
    let js := jobs i files items in
    submitLoop prio respond i files items out =
    (map (fun '(j, f) => settled (name f) (respond j)) js ++
       skipn (length js) items,
     {| notes := notes out ++
          flat_map (fun '(j, f) => failure_note (name f) (respond j)) js;
        requests := requests out ++
          map (fun '(j, f) => Request f "" prio) js;
        polls := polls out ++
          flat_map (fun '(j, f) => poll_for j (name f) (respond j)) js |}).
Proof.
  induction files as [|f files IH]; intros i items out.
  - cbn. rewrite !app_nil_r. destruct out; reflexivity.
  - destruct items as [|it items].
    + cbn. rewrite !app_nil_r. destruct out; reflexivity.
    + cbn [submitLoop].
      destruct (respond i) as [tid|detail|message] eqn:Er;
        rewrite IH; unfold jobs; cbn [length Nat.min seq combine map flat_map
                                        skipn app notes requests polls];
        rewrite Er; cbn [settled failure_note poll_for app];
        unfold showNotification; rewrite <- ?app_assoc; reflexivity.
Qed.

Lemma jobs_aligned (files : list file) (items : list item_html) :
  length items = length files ->
  jobs 0 files items = combine (seq 0 (length files)) files.
Proof. intros H. unfold jobs. rewrite H, Nat.min_id. reflexivity. Qed.

(** X7.  From any queue built by adding and clearing: with an empty queue
    [startAnalysis] only warns; otherwise every stored file is submitted
    exactly once, in order, with empty lyrics and the selected priority,
    whatever became of the submissions before it.  Each item then shows
    what its own submission came to, each failed submission gives one
    error notification, and the closing "Analysis started for all files!"
    is shown in every case, also when every submission failed.  The
    stored files are kept. *)
Theorem startAnalysis_submits_every_file (ops : list qop) (o : options)
  (respond : nat -> submit_outcome) :
  let s := fold_left qapply ops page in
  let r := startAnalysis o respond s in
  let files := uploadedFiles s in
  let js := combine (seq 0 (length files)) files in
  (files = [] /\ r = warn "No files in queue" s) \/
  (files <> [] /\
   sent r = map (fun f => Request f "" (priority o)) files /\
   uploadedFiles (after r) = files /\
   queueList (after r) =
     Some (map (fun '(j, f) => settled (name f) (respond j)) js) /\
   notifications (after r) =
     notifications s ++ [Notify "Starting analysis..." NInfo 3000] ++
     flat_map (fun '(j, f) => failure_note (name f) (respond j)) js ++
     [Notify "Analysis started for all files!" NSuccess 3000] /\
   tracked r = flat_map (fun '(j, f) => poll_for j (name f) (respond j)) js).
Proof.
  intros s r files js.
  destruct (aligned_fold ops page aligned_page) as (Hq & _ & _).
  fold s in Hq. fold files in Hq.
  unfold r, startAnalysis. rewrite Hq, length_map. fold files.
  destruct files as [|f0 fs] eqn:Ef; [left; split; reflexivity|].
  right. split; [discriminate|].
  cbn [length Nat.eqb]. rewrite submitLoop_spec.
  rewrite jobs_aligned by (rewrite length_map; reflexivity).
  fold js. cbn [after sent tracked uploadedFiles queueList notifications
                notes requests polls app].
  assert (Hl : length js = length (map createQueueItem (f0 :: fs))).
  { unfold js. rewrite length_combine, length_seq, length_map. lia. }
  rewrite Hl, skipn_all, app_nil_r.
  split.
  - unfold js. clear. generalize 0%nat. generalize (f0 :: fs).
    induction l as [|f l IH]; intros i; cbn; [reflexivity|].
    f_equal. apply IH.
  - split; [reflexivity|]. split; [reflexivity|]. split; [|reflexivity].
    unfold showNotification. rewrite <- !app_assoc. reflexivity.
Qed.

(** The three analysis check boxes (copyright, bias, content) have
    no effect on what [startAnalysis] does: two runs that differ only in
    them send the same requests and leave the same page. *)
Theorem startAnalysis_ignores_checkboxes (o1 o2 : options)
  (respond : nat -> submit_outcome) (s : state) :
  priority o1 = priority o2 ->
  startAnalysis o1 respond s = startAnalysis o2 respond s.
Proof. intros H. unfold startAnalysis. rewrite H. reflexivity. Qed.

Lemma startAnalysis_ignores_checkboxes_witness :
  startAnalysis (Options true true true "high") sample_respond sample_queue =
  startAnalysis (Options false false false "high") sample_respond sample_queue.
Proof.
  apply (startAnalysis_ignores_checkboxes
           (Options true true true "high") (Options false false false "high")).
  reflexivity.
Defined.

End SubmissionFacts.

(** ** A batch of files: what the auto-clear of one poller does to the rest *)

Module BatchFacts.

Import UploadQueue TaskTracker Batch.

Lemma has_clear_poll_completed (t : tracker) :
  has_clear (poll t completed) = true.
Proof.
  unfold has_clear. cbn. rewrite existsb_app. cbn. apply orb_true_r.
Qed.

Lemma fireClear_fires (k : nat) (b : batch) (j : job) :
  jobs b !! k = Some j -> has_clear (closure j) = true ->
  fireClear k b =
  {| children := []; container := DisplayNone; stored := [];
     jobs := <[k := fired j]> (jobs b) |}.
Proof. intros Hj Hc. unfold fireClear. rewrite Hj, Hc. reflexivity. Qed.

Lemma respond_live (k : nat) (r : response) (b : batch) (j : job) :
  jobs b !! k = Some j -> live j = true ->
  respond k r b =
  {| children := children b; container := container b; stored := stored b;
     jobs := <[k := Job (poll (fire_poll (closure j)) r)
                        (polling (poll (fire_poll (closure j)) r))]> (jobs b) |}.
Proof. intros Hj Hl. unfold respond. rewrite Hj, Hl. reflexivity. Qed.

Lemma omap_polled (b : batch) (pre l : list job) :
  jobs b = pre ++ l ->
  omap (child_html b) (map Polled (seq (length pre) (length l))) =
  map (fun j => item (closure j)) l.
Proof.
  revert pre. induction l as [|a l IH]; intros pre Hj; [reflexivity|].
  cbn [length seq map omap list_omap]. 
  assert (E : child_html b (Polled (length pre)) = Some (item (closure a))).
  { unfold child_html. rewrite Hj, lookup_app_r by lia.
    rewrite Nat.sub_diag. reflexivity. }
  rewrite E. cbn. f_equal.
  specialize (IH (pre ++ [a])). rewrite length_app in IH. cbn [length] in IH.
  rewrite Nat.add_1_r in IH. apply IH. rewrite <- app_assoc. exact Hj.
Qed.

(** While every item is still in the list with its poller, the queue shows
    what the pollers wrote. *)
Lemma items_all_polled (b : batch) :
  children b = map Polled (seq 0 (length (jobs b))) ->
  items b = map (fun j => item (closure j)) (jobs b).
Proof.
  intros Hc. unfold items. rewrite Hc. apply (omap_polled b []). reflexivity.
Qed.

Lemma submitted_job (files : list file) (k : nat) (f : file) :
  files !! k = Some f ->
  jobs (submitted files) !! k = Some (Job (start (name f)) true).
Proof.
  intros H. unfold submitted. cbn. rewrite list_lookup_fmap, H. reflexivity.
Qed.

Lemma map_combine_seq {A B} (h : nat * A -> B) (g : A -> B) (l : list A)
  (i : nat) :
  (forall j f, h (j, f) = g f) ->
  map h (combine (seq i (length l)) l) = map g l.
Proof.
  intros H. revert i. induction l as [|a l IH]; intros i; [reflexivity|].
  cbn. rewrite H. f_equal. apply IH.
Qed.

(** [submitted] is the page [startAnalysis] leaves when the queue holds
    one item per stored file and every submission is accepted. *)
Lemma submitted_by_startAnalysis (o : Submission.options) (tid : nat -> string)
  (s : UploadQueue.state) (its : list item_html) :
  queueList s = Some its -> uploadQueue s = Some DisplayBlock ->
  length its = length (uploadedFiles s) -> uploadedFiles s <> [] ->
  let sub := Submission.startAnalysis o
               (fun i => Submission.Accepted (tid i)) s in
  let b := submitted (uploadedFiles s) in
  queueList (Submission.after sub) = Some (items b) /\
  uploadQueue (Submission.after sub) = Some (container b) /\
  uploadedFiles (Submission.after sub) = stored b /\
  length (Submission.tracked sub) = length (jobs b).
Proof.
  intros Hq Hu Hlen Hne sub b.
  assert (Ib : items b = map (fun f => ItemProcessing (name f)) (uploadedFiles s)).
  { rewrite items_all_polled.
    - unfold b, submitted. cbn [jobs]. rewrite map_map. reflexivity.
    - unfold b, submitted. cbn [jobs children]. rewrite length_map. reflexivity. }
  unfold sub, Submission.startAnalysis. rewrite Hq.
  destruct (uploadedFiles s) as [|f fs] eqn:Ef; [congruence|].
  destruct its as [|it its']; [discriminate|].
  cbn [length Nat.eqb].
  rewrite SubmissionFacts.submitLoop_spec.
  rewrite SubmissionFacts.jobs_aligned by exact Hlen.
  cbn [Submission.after Submission.tracked queueList uploadQueue uploadedFiles
       Submission.polls Submission.requests Submission.notes].
  split; [|split; [|split]].
  - rewrite Ib. f_equal.
    rewrite length_combine, length_seq, Nat.min_id.
    rewrite skipn_all2 by (rewrite Hlen; apply Nat.le_refl).
    rewrite app_nil_r. apply map_combine_seq. reflexivity.
  - exact Hu.
  - reflexivity.
  - cbn [app]. unfold b, submitted. cbn [jobs]. rewrite length_map.
    generalize (f :: fs). intros l. generalize 0%nat.
    induction l as [|a l IH]; intros i; [reflexivity|].
    cbn. f_equal. apply IH.
Qed.

(** C6 (as the page behaves).  One poller: a "completed" answer writes the
    Completed markup, shows one success notification and schedules one
    [clearUploadQueue] after 2000 ms; a "failed" answer writes the Failed
    markup, shows one error notification and schedules nothing; neither
    schedules another poll, so after [k <= 30] running answers the poller
    ends in that state and later answers are never consumed.  The queue:
    when the clear scheduled by a completed poller fires, it empties the
    whole list and the stored files, whatever the other items show; a
    failed poller has no clear of its own to fire.  So in a batch where
    file [j] failed and file [i] completed, the item of [j] reads Failed
    only until the clear of [i] removes it with all the others. *)
Theorem completed_clears_whole_queue (fname : string) :
  (forall t : tracker,
     let t' := poll t completed in
     item t' = ItemCompleted (fileName t) /\
     notes t' = notes t ++
       [Notify ("Analysis completed for " ++ fileName t) NSuccess 3000] /\
     timers t' = timers t ++ [Timer 2000 AClearUploadQueue] /\
     attempts t' = attempts t /\ console t' = console t) /\
  (forall t : tracker,
     let t' := poll t failed in
     item t' = ItemFailed (fileName t) /\
     notes t' = notes t ++
       [Notify ("Analysis failed for " ++ fileName t) NError 3000] /\
     timers t' = timers t /\
     attempts t' = attempts t /\ console t' = console t) /\
  (forall (k : nat) (rs : list response), (k <= 30)%nat ->
     let t := pollTaskStatus fname (repeat running k ++ completed :: rs) in
     t = completed_after fname k /\ shown t = Some Completed /\
     polling t = false) /\
  (forall (k : nat) (rs : list response), (k <= 30)%nat ->
     let t := pollTaskStatus fname (repeat running k ++ failed :: rs) in
     t = failed_after fname k /\ shown t = Some Failed /\
     polling t = false) /\
  (forall (b : batch) (k : nat) (j : job),
     jobs b !! k = Some j -> live j = true ->
     let b1 := respond k completed b in
     let b2 := fireClear k b1 in
     closure <$> (jobs b1 !! k) =
       Some (poll (fire_poll (closure j)) completed) /\
     children b1 = children b /\ stored b1 = stored b /\
     items b2 = [] /\ stored b2 = [] /\ container b2 = DisplayNone /\
     queue b2 = clearUploadQueue (queue b1)) /\
  (forall (b : batch) (k : nat) (j : job),
     jobs b !! k = Some j -> live j = true ->
     has_clear (closure j) = false ->
     let b1 := respond k failed b in
     closure <$> (jobs b1 !! k) =
       Some (poll (fire_poll (closure j)) failed) /\
     children b1 = children b /\ stored b1 = stored b /\
     fireClear k b1 = b1) /\
  (forall (files : list file) (i j : nat) (fi fj : file),
     i <> j -> files !! i = Some fi -> files !! j = Some fj ->
     let b1 := respond i completed (respond j failed (submitted files)) in
     items b1 !! j = Some (ItemFailed (name fj)) /\
     items b1 !! i = Some (ItemCompleted (name fi)) /\
     stored b1 = files /\
     items (fireClear i b1) = [] /\ stored (fireClear i b1) = []).
Proof.
  destruct (TaskTrackerFacts.poll_completed_and_failed fname)
    as (P1 & P2 & P3 & P4).
  split; [exact P1|]. split; [exact P2|]. split; [exact P3|].
  split; [exact P4|]. split; [|split].
  - intros b k j Hj Hl b1 b2.
    assert (E1 : b1 = _) by exact (respond_live k completed b j Hj Hl).
    assert (K : (k < length (jobs b))%nat) by exact (lookup_lt_Some _ _ _ Hj).
    assert (J1 : jobs b1 !! k =
                 Some (Job (poll (fire_poll (closure j)) completed)
                         (polling (poll (fire_poll (closure j)) completed)))).
    { rewrite E1. cbn [jobs]. rewrite list_lookup_insert_eq by exact K.
      reflexivity. }
    pose proof (fireClear_fires k b1 _ J1 (has_clear_poll_completed _)) as E2.
    fold b2 in E2.
    split; [rewrite J1; reflexivity|]. split; [rewrite E1; reflexivity|].
    split; [rewrite E1; reflexivity|].
    rewrite E2. repeat split.
  - intros b k j Hj Hl Hn b1.
    assert (E1 : b1 = _) by exact (respond_live k failed b j Hj Hl).
    assert (K : (k < length (jobs b))%nat) by exact (lookup_lt_Some _ _ _ Hj).
    assert (J1 : jobs b1 !! k =
                 Some (Job (poll (fire_poll (closure j)) failed)
                         (polling (poll (fire_poll (closure j)) failed)))).
    { rewrite E1. cbn [jobs]. rewrite list_lookup_insert_eq by exact K.
      reflexivity. }
    split; [rewrite J1; reflexivity|]. split; [rewrite E1; reflexivity|].
    split; [rewrite E1; reflexivity|].
    unfold fireClear. rewrite J1. cbn [closure].
    replace (has_clear (poll (fire_poll (closure j)) failed)) with false;
      [reflexivity|].
    symmetry. unfold has_clear in *. cbn.
    revert Hn. generalize (timers (closure j)).
    induction l as [|tm l IH]; [reflexivity|]. cbn.
    unfold is_clear at 1 3. destruct (is_poll tm) eqn:Ep; cbn.
    + intros H. exact H.
    + discriminate.
  - intros files i j fi fj Hne Hi Hj b1.
    set (b0 := respond j failed (submitted files)).
    assert (E0 : b0 = _)
      by exact (respond_live j failed _ _ (submitted_job files j fj Hj) eq_refl).
    assert (Li : (i < length files)%nat) by exact (lookup_lt_Some _ _ _ Hi).
    assert (Lj : (j < length files)%nat) by exact (lookup_lt_Some _ _ _ Hj).
    assert (J0 : jobs b0 !! i = Some (Job (start (name fi)) true)).
    { rewrite E0. cbn [jobs]. rewrite list_lookup_insert_ne by congruence.
      apply submitted_job, Hi. }
    assert (E1 : b1 = _) by exact (respond_live i completed b0 _ J0 eq_refl).
    assert (Len : length (jobs b1) = length files).
    { rewrite E1. cbn [jobs]. rewrite length_insert, E0. cbn [jobs].
      rewrite length_insert. unfold submitted. cbn. apply length_map. }
    assert (C1 : children b1 = map Polled (seq 0 (length (jobs b1)))).
    { rewrite Len, E1. cbn [children]. rewrite E0. reflexivity. }
    assert (Ji : jobs b1 !! i =
                 Some (Job (poll (fire_poll (start (name fi))) completed) false)).
    { rewrite E1. cbn [jobs closure]. rewrite list_lookup_insert_eq.
      - reflexivity.
      - rewrite E0. cbn [jobs]. rewrite length_insert. unfold submitted. cbn.
        rewrite length_map. exact Li. }
    assert (Jj : jobs b1 !! j =
                 Some (Job (poll (fire_poll (start (name fj))) failed) false)).
    { rewrite E1. cbn [jobs closure]. rewrite list_lookup_insert_ne by congruence.
      rewrite E0. cbn [jobs closure]. rewrite list_lookup_insert_eq.
      - reflexivity.
      - unfold submitted. cbn. rewrite length_map. exact Lj. }
    rewrite (items_all_polled b1 C1), !list_lookup_fmap, Ji, Jj.
    split; [reflexivity|]. split; [reflexivity|].
    split; [rewrite E1; cbn [stored]; rewrite E0; reflexivity|].
    rewrite (fireClear_fires i b1 _ Ji) by apply has_clear_poll_completed.
    split; reflexivity.
Qed.

Lemma completed_clears_whole_queue_witness :
  let b1 := respond 1 completed (respond 0 failed (submitted two_files)) in
  items b1 !! 0%nat = Some (ItemFailed "a.mp3") /\
  items (fireClear 1 b1) = [] /\
  pollTaskStatus "a.mp3" [failed; completed] = failed_after "a.mp3" 0.
Proof.
  destruct (completed_clears_whole_queue "a.mp3")
    as (_ & _ & _ & Hf & _ & _ & Hb).
  assert (Hne : 1%nat <> 0%nat) by discriminate.
  destruct (Hb two_files 1%nat 0%nat (File "b.mp3" 2) (File "a.mp3" 1)
              Hne eq_refl eq_refl) as (H0 & _ & _ & H2 & _).
  split; [exact H0|]. split; [exact H2|].
  apply (Hf 0%nat [completed]). lia.
Defined.

(** C6 as stated fails: a failed item does not stay until the user acts.
    Two files are analysed; the first fails, the second completes.  The
    poller of the first has scheduled nothing, yet when the clear scheduled
    by the second fires, the queue is empty and the stored files are gone:
    the Failed item went with the rest. *)
Lemma failed_item_cleared_by_sibling :
  let b1 := respond 1 completed (respond 0 failed (submitted two_files)) in
  items b1 = [ItemFailed "a.mp3"; ItemCompleted "b.mp3"] /\
  (timers <$> (closure <$> (jobs b1 !! 0%nat))) = Some [] /\
  (timers <$> (closure <$> (jobs b1 !! 1%nat))) =
    Some [Timer 2000 AClearUploadQueue] /\
  fireClear 0 b1 = b1 /\
  items (fireClear 1 b1) = [] /\
  stored (fireClear 1 b1) = [] /\
  queue (fireClear 1 b1) = clearUploadQueue (queue b1).
Proof. repeat split. Qed.

End BatchFacts.

(** ** Analysis table: windows and pagination controls *)

Module PaginationFacts.

Import ResultList Pagination.

Lemma slice_nat {A} (a n : nat) (l : list A) :
  slice (Z.of_nat a) (Z.of_nat a + Z.of_nat n) l = firstn n (skipn a l).
Proof.
  unfold slice. cbv zeta.
  replace (Z.of_nat a <? 0)%Z with false by (symmetry; apply Z.ltb_ge; lia).
  replace (Z.of_nat a + Z.of_nat n <? 0)%Z with false
    by (symmetry; apply Z.ltb_ge; lia).
  replace (Z.to_nat (Z.min (Z.of_nat a) (Z.of_nat (length l))))
    with (Nat.min a (length l)) by lia.
  replace (Z.to_nat (Z.min (Z.of_nat a + Z.of_nat n) (Z.of_nat (length l)) -
                     Z.min (Z.of_nat a) (Z.of_nat (length l))))
    with (Nat.min (a + n) (length l) - Nat.min a (length l))%nat by lia.
  destruct (le_lt_dec (length l) a) as [Hge|Hlt].
  - rewrite (Nat.min_r a) by lia. rewrite !(skipn_all2 l) by lia.
    rewrite !firstn_nil. reflexivity.
  - rewrite (Nat.min_l a) by lia.
    destruct (le_lt_dec (length l) (a + n)) as [Hge|Hlt'].
    + rewrite Nat.min_r by lia.
      rewrite !firstn_all2; [reflexivity | | ]; rewrite length_skipn; lia.
    + rewrite Nat.min_l by lia. f_equal. lia.
Qed.

Lemma pageRows_nat (p : nat) (l : list analysis) :
  pageRows (Z.of_nat (S p)) l = firstn 10 (skipn (10 * p) l).
Proof.
  unfold pageRows, itemsPerPage.
  replace ((Z.of_nat (S p) - 1) * 10)%Z with (Z.of_nat (10 * p)) by lia.
  apply (slice_nat (10 * p) 10).
Qed.

(** Cutting a list into chunks of 10 and gluing them loses nothing. *)
Lemma chunks_concat {A} (n : nat) :
  forall l : list A, (length l <= 10 * n)%nat ->
  concat (map (fun i => firstn 10 (skipn (10 * i) l)) (seq 0 n)) = l.
Proof.
  induction n as [|n IH]; intros l Hl.
  - destruct l; [reflexivity | cbn in Hl; lia].
  - cbn [seq map concat]. rewrite <- seq_shift, map_map.
    rewrite (map_ext _ (fun i => firstn 10 (skipn (10 * i) (skipn 10 l)))).
    + rewrite IH by (rewrite length_skipn; lia).
      change (skipn (10 * 0) l) with l. apply firstn_skipn.
    + intros i. rewrite skipn_skipn. do 2 f_equal. lia.
Qed.

Lemma totalPagesOf_bounds (n : nat) :
  (Z.of_nat n <= 10 * totalPagesOf n < Z.of_nat n + 10)%Z.
Proof. apply (ResultListFacts.ceil_div_bounds (Z.of_nat n)). Qed.

(** X8.  The pages cut the filtered list into consecutive windows: glued
    together in page order the windows of pages 1 .. totalPages give back
    the list, every such window holds between 1 and 10 rows, and every
    later page is empty. *)
Theorem pages_partition (l : list analysis) :
  concat (map (fun p => pageRows p l) (pageNumbers l)) = l /\
  (forall p : Z, (1 <= p <= totalPagesOf (length l))%Z ->
     (1 <= length (pageRows p l) <= 10)%nat) /\
  (forall p : Z, (totalPagesOf (length l) < p)%Z -> pageRows p l = []).
Proof.
  pose proof (totalPagesOf_bounds (length l)) as B.
  split; [|split].
  - unfold pageNumbers. rewrite map_map, <- seq_shift, map_map.
    rewrite (map_ext _ (fun i => firstn 10 (skipn (10 * i) l)))
      by (intros i; apply pageRows_nat).
    apply chunks_concat. lia.
  - intros p Hp. replace p with (Z.of_nat (S (Z.to_nat (p - 1)))) by lia.
    rewrite pageRows_nat, length_firstn, length_skipn. lia.
  - intros p Hp. replace p with (Z.of_nat (S (Z.to_nat (p - 1)))) by lia.
    rewrite pageRows_nat, skipn_all2 by lia. apply firstn_nil.
Qed.

Lemma changePage_fixed_iff (d : Z) (s : state) :
  d <> 0%Z ->
  changePage d s = s <-> ~ (1 <= currentPage s + d <= totalPages s)%Z.
Proof.
  intros Hd. split.
  - intros E H. rewrite ResultListFacts.changePage_in_range in E by exact H.
    apply (f_equal currentPage) in E. cbn in E. lia.
  - apply ResultListFacts.changePage_out_of_range.
Qed.

(** X9.  In every state the table can reach, a pagination button is
    disabled exactly when the page change it asks for would do nothing:
    "previous" with [changePage(-1)], "next" with [changePage(1)]. *)
Theorem disabled_buttons_do_nothing (ops : list op) :
  let s := run ops in
  (prev_disabled (controlsOf s) = true <-> changePage (-1) s = s) /\
  (next_disabled (controlsOf s) = true <-> changePage 1 s = s).
Proof.
  intros s.
  assert (Hok : page_ok s).
  { unfold s, run. apply ResultListFacts.page_ok_fold. unfold page_ok. cbn. lia. }
  unfold page_ok in Hok. unfold controlsOf, updatePagination. cbn.
  fold (totalPages s).
  rewrite !changePage_fixed_iff by discriminate.
  rewrite !Z.leb_le. split; lia.
Qed.

Lemma invariants_apply (s : state) (o : op) :
  is_filter_of (filteredAnalyses s) (allAnalyses s) /\ label_true s ->
  is_filter_of (filteredAnalyses (apply s o)) (allAnalyses (apply s o)) /\
  label_true (apply s o).
Proof.
  intros [Hf Hl]. destruct o as [l | t | | | d]; cbn [apply].
  - split; [|reflexivity]. exists (fun _ => true). cbn.
    symmetry. apply forallb_filter_id. apply forallb_forall. reflexivity.
  - unfold performSearch, label_true. cbn.
    destruct (Js.truthy (Js.trim t)); cbn.
    + split; [exists (matches t); reflexivity | split; reflexivity].
    + split; [|reflexivity]. exists (fun _ => true).
      symmetry. apply forallb_filter_id. apply forallb_forall. reflexivity.
  - split; assumption.
  - split; assumption.
  - unfold changePage.
    destruct ((1 <=? currentPage s + d)%Z && (currentPage s + d <=? totalPages s)%Z);
      split; assumption.
Qed.

(** X10.  In every state the table can reach, the filtered list is the
    full list filtered by some predicate (same records, same order, none
    added), and the count label, once written, tells the true numbers of
    filtered and loaded records. *)
Theorem filtered_and_label_stay_true (ops : list op) :
  let s := run ops in
  (exists keep : analysis -> bool,
     filteredAnalyses s = List.filter keep (allAnalyses s)) /\
  match analysisCount s with
  | None => True
  | Some (CountAll n) => n = length (allAnalyses s)
  | Some (CountMatching k n) =>
      k = length (filteredAnalyses s) /\ n = length (allAnalyses s)
  end.
Proof.
  intros s. unfold s, run.
  assert (G : forall ops s0,
             is_filter_of (filteredAnalyses s0) (allAnalyses s0) /\ label_true s0 ->
             is_filter_of (filteredAnalyses (fold_left apply ops s0))
                          (allAnalyses (fold_left apply ops s0)) /\
             label_true (fold_left apply ops s0)).
  { clear. induction ops as [|o ops IH]; intros s0 H; cbn; [exact H|].
    apply IH, invariants_apply, H. }
  apply G. split; [exists (fun _ => true); reflexivity | exact I].
Qed.

End PaginationFacts.

(** ** Dashboard data: loading and refreshing *)

Module DashboardFacts.

Import ResultList Dashboard.

(** X11.  What a reload does to the analysis table.  When the load fails,
    or when the stats report no analyses, the table is left exactly as it
    was: the mock analyses of the fallback are never shown, and analyses
    that arrive beside zero stats are dropped.  Otherwise the table is
    replaced by the loaded analyses, which puts it back on page 1 with no
    search filter, whatever page and search were in force. *)
Theorem reload_table (l : loaded) (d : state) :
  let d' := loadDashboardData l d in
  match l with
  | LoadFailed => table d' = table d
  | Loaded st analyses =>
      let rows := match analyses with Some a => a | None => [] end in
      if (total_analyses st =? 0)%N then table d' = table d
      else
        table d' = updateAnalysisTable rows (table d) /\
        allAnalyses (table d') = rows /\
        filteredAnalyses (table d') = rows /\
        currentPage (table d') = 1%Z /\
        isShowingAll (table d') = isShowingAll (table d)
  end.
Proof.
  destruct l as [|st analyses]; cbn; [reflexivity|].
  unfold updateDashboardMetrics.
  destruct (total_analyses st =? 0)%N; cbn; [reflexivity|].
  repeat split.
Qed.

(** X12.  [refreshAnalyses] always ends by announcing success, also when
    the load failed and the table kept its old content; in that case the
    only trace of the failure is a console message. *)
Theorem refresh_always_reports_success (l : loaded) (d : state) :
  let d' := refreshAnalyses l d in
  notes d' = notes d ++
    [Notify "Refreshing analyses..." NInfo 1000;
     Notify "Analyses refreshed successfully!" NSuccess 2000] /\
  (l = LoadFailed ->
   table d' = table d /\
   console d' = console d ++ ["Error loading dashboard data:"%string]).
Proof.
  intros d'. split.
  - unfold d', refreshAnalyses, notify, showNotification.
    destruct l as [|st analyses]; cbn.
    + rewrite <- app_assoc. reflexivity.
    + unfold updateDashboardMetrics.
      destruct (total_analyses st =? 0)%N; cbn; rewrite <- app_assoc;
        reflexivity.
  - intros ->. split; reflexivity.
Qed.

End DashboardFacts.

(** ** Audio player: sequences of calls, lyrics modal *)

Module PlayerPageFacts.

Import AudioPlayer PlayerPage.

Lemma single_active_same_audios (s s' : state) :
  audios s' = audios s -> currentAudio s' = currentAudio s ->
  single_active s -> single_active s'.
Proof. intros Ha Hc Hs h a. rewrite Ha, Hc. apply Hs. Qed.

Lemma current_exists_alter (f : audio -> audio) (h0 : nat) (s s' : state) :
  audios s' = alter f h0 (audios s) -> currentAudio s' = currentAudio s ->
  current_exists s -> current_exists s'.
Proof.
  intros Ha Hc He h. rewrite Ha, Hc. intros H. specialize (He h H).
  destruct (decide (h0 = h)) as [->|Hne].
  - rewrite list_lookup_alter_eq. destruct He as [a ->]. eexists; reflexivity.
  - rewrite list_lookup_alter_ne by exact Hne. exact He.
Qed.

Lemma playAudio_current_exists (i : N) (s : state) :
  current_exists (playAudio i s).
Proof.
  intros h. rewrite AudioPlayerFacts.playAudio_unfold. cbn -[stopCurrent].
  intros [= <-]. rewrite lookup_app_r by (rewrite AudioPlayerFacts.stopCurrent_length; lia).
  rewrite AudioPlayerFacts.stopCurrent_length, Nat.sub_diag. eexists; reflexivity.
Qed.

Lemma togglePlayPause_current_exists (s : state) :
  current_exists s -> current_exists (togglePlayPause s).
Proof.
  intros He. unfold togglePlayPause.
  destruct (currentAudio s) as [h0|] eqn:Ec; [|exact He].
  destruct (audios s !! h0) as [a0|] eqn:El; [|exact He].
  destruct (paused a0); revert He;
    [apply (current_exists_alter (set_paused false) h0)
    |apply (current_exists_alter (set_paused true) h0)]; reflexivity.
Qed.

Lemma stopAudio_current_exists (s : state) :
  current_exists s -> current_exists (stopAudio s).
Proof.
  intros He. unfold stopAudio.
  destruct (currentAudio s) as [h0|] eqn:Ec; [|exact He].
  intros h. cbn. discriminate.
Qed.

Lemma seekAudio_current_exists (p : Q) (s : state) :
  current_exists s -> current_exists (seekAudio p s).
Proof.
  intros He. unfold seekAudio.
  destruct (currentAudio s) as [h|]; [|exact He].
  destruct (audios s !! h) as [a|]; [|exact He].
  destruct (known_duration a) as [d|]; [|exact He].
  destruct (seekTime p d) as [t|]; [|exact He].
  revert He. apply (current_exists_alter (assign_time t) h); reflexivity.
Qed.

Lemma act_keeps (pg : page) (a : action) :
  single_active (player pg) /\ current_exists (player pg) ->
  single_active (player (act pg a)) /\ current_exists (player (act pg a)).
Proof.
  intros [Hs He]. destruct a; cbn [act on_player player showLyrics
                                    closeLyricsModal closeAnalysisModal].
  - split; [apply AudioPlayerFacts.playAudio_single_active, Hs
           |apply playAudio_current_exists].
  - split; [apply AudioPlayerFacts.togglePlayPause_single_active, Hs
           |apply togglePlayPause_current_exists, He].
  - split; [apply AudioPlayerFacts.stopAudio_single_active, Hs
           |apply stopAudio_current_exists, He].
  - split; [apply AudioPlayerFacts.seekAudio_single_active, Hs
           |apply seekAudio_current_exists, He].
  - split; [exact Hs | exact He].
  - split; [exact Hs | exact He].
  - split; [exact Hs | exact He].
  - split; [exact Hs | exact He].
Qed.

(** X13.  Over every sequence of user-triggered calls on the player and
    the modals, from a fresh page (handlers of media events aside): every
    audio object that is not paused is the current one, so at most one
    object plays, and the current object, when there is one, exists. *)
Theorem at_most_one_playing (bs : list button) (acts : list action) :
  let s := player (fold_left act acts (fresh_page bs)) in
  (forall h a, audios s !! h = Some a -> paused a = false ->
     currentAudio s = Some h) /\
  (forall h, currentAudio s = Some h -> exists a, audios s !! h = Some a).
Proof.
  intros s.
  assert (G : forall acts pg,
             single_active (player pg) /\ current_exists (player pg) ->
             single_active (player (fold_left act acts pg)) /\
             current_exists (player (fold_left act acts pg))).
  { clear. induction acts as [|a acts IH]; intros pg H; cbn; [exact H|].
    apply IH, act_keeps, H. }
  destruct (G acts (fresh_page bs)) as [Hs He].
  { split; [apply AudioPlayerFacts.single_active_init | intros h; discriminate]. }
  split; [exact Hs | exact He].
Qed.

Lemma stopAudio_all_paused (s : state) :
  single_active s ->
  forall h a, audios (stopAudio s) !! h = Some a -> paused a = true.
Proof.
  intros Hs h a Hl.
  pose proof (AudioPlayerFacts.stopAudio_single_active s Hs h a Hl) as K.
  destruct (paused a); [reflexivity|].
  specialize (K eq_refl). unfold stopAudio in K.
  destruct (currentAudio s) eqn:E; cbn in K; congruence.
Qed.

(** X14.  [stopAudio] ends the session: afterwards there is no current
    object and (where at most the current object was playing) no object
    plays at all; the object that was current is rewound to 0 and the
    player is hidden; a second [stopAudio] changes nothing. *)
Theorem stopAudio_ends_session (s : state) :
  single_active s ->
  let s' := stopAudio s in
  currentAudio s' = None /\
  (forall h a, audios s' !! h = Some a -> paused a = true) /\
  (forall h a, currentAudio s = Some h -> audios s !! h = Some a ->
     audios s' !! h = Some (set_time 0 (set_paused true a)) /\
     playerShown s' = false /\ currentAnalysisId s' = None) /\
  stopAudio s' = s'.
Proof.
  intros Hs s'.
  assert (Hc : currentAudio s' = None).
  { unfold s', stopAudio. destruct (currentAudio s) eqn:E; [reflexivity | exact E]. }
  split; [exact Hc|]. split; [apply stopAudio_all_paused, Hs|]. split.
  - intros h a Eh El. unfold s', stopAudio. rewrite Eh. cbn.
    rewrite !list_lookup_alter_eq, El. repeat split.
  - unfold stopAudio at 1. rewrite Hc. reflexivity.
Qed.

Lemma stopAudio_ends_session_witness :
  let s := playAudio 3 (init two_buttons) in
  currentAudio (stopAudio s) = None /\
  audios (stopAudio s) !! 0%nat =
    Some (set_time 0 (set_paused true (started_audio 3))).
Proof.
  assert (Hs : single_active (playAudio 3 (init two_buttons)))
    by apply AudioPlayerFacts.playAudio_single_active,
             AudioPlayerFacts.single_active_init.
  destruct (stopAudio_ends_session _ Hs) as (Hc & _ & Hr & _).
  split; [exact Hc|]. apply (Hr 0%nat (started_audio 3)); reflexivity.
Defined.

Lemma updateButton_None_stopped (b : button) :
  updateButton None SStopped b = b.
Proof.
  unfold updateButton, button_is. destruct (onclick b); reflexivity.
Qed.

Lemma map_id_ext {A} (f : A -> A) (l : list A) :
  (forall x, f x = x) -> map f l = l.
Proof.
  intros H. induction l as [|x l IH]; cbn; [reflexivity|].
  rewrite H, IH. reflexivity.
Qed.

Lemma playing_after_play (i : N) (b : button) :
  onclick b = Some i ->
  playing (updateButton (Some i) SPlaying b) = true /\
  btn_icon (updateButton (Some i) SPlaying b) = FaPause.
Proof.
  intros Ho. unfold updateButton, button_is. rewrite Ho, N.eqb_refl.
  split; reflexivity.
Qed.

Lemma updateButton_onclick (i : option N) (st : bstate) (b : button) :
  onclick (updateButton i st b) = onclick b.
Proof.
  unfold updateButton. destruct (button_is i b), st; reflexivity.
Qed.

(** X15.  The lyrics modal and the player share [currentAnalysisId].
    After [playAudio(A)], opening the lyrics of any analysis and closing
    them again leaves that variable empty; [stopAudio] then still ends the
    session but resets no button, so the buttons of A keep showing
    "playing" (pause icon) although nothing plays.  Without the modal in
    between, [stopAudio] leaves no button marked. *)
Theorem stop_after_lyrics_keeps_indicator (A i : N) (pg : page) :
  let pg1 := on_player (playAudio A) pg in
  let pg2 := closeLyricsModal (showLyrics i pg1) in
  let stopped := stopAudio (player pg2) in
  currentAnalysisId (player pg2) = None /\
  currentAudio stopped = None /\
  buttons stopped = buttons (player pg1) /\
  (forall b, In b (buttons stopped) -> onclick b = Some A ->
     playing b = true /\ btn_icon b = FaPause) /\
  (forall b, In b (buttons (stopAudio (player pg1))) -> playing b = false).
Proof.
  intros pg1 pg2 stopped.
  assert (E1 : player pg1 = playAudio A (player pg)) by reflexivity.
  assert (Hc : currentAudio (player pg2) = Some (length (audios (player pg)))).
  { change (currentAudio (player pg2))
      with (currentAudio (playAudio A (player pg))).
    rewrite AudioPlayerFacts.playAudio_unfold. reflexivity. }
  assert (Hb : buttons stopped = buttons (player pg1)).
  { unfold stopped, stopAudio. rewrite Hc. cbn -[playAudio].
    apply map_id_ext, updateButton_None_stopped. }
  split; [reflexivity|]. split.
  { unfold stopped, stopAudio. rewrite Hc. reflexivity. }
  split; [exact Hb|]. split.
  - intros b. rewrite Hb, E1, AudioPlayerFacts.playAudio_unfold.
    cbn -[stopCurrent]. rewrite in_map_iff. intros (b0 & <- & _) Ho.
    rewrite updateButton_onclick in Ho. apply playing_after_play, Ho.
  - intros b. rewrite E1. unfold stopAudio.
    rewrite AudioPlayerFacts.playAudio_unfold. cbn -[stopCurrent].
    rewrite map_map, in_map_iff. intros (b0 & <- & _).
    unfold updateButton, button_is. destruct b0 as [[n|] pl ic ti]; cbn.
    + destruct (n =? A)%N eqn:E; cbn; rewrite ?E; reflexivity.
    + reflexivity.
Qed.

Lemma sessionOver_keeps_other (A B : N) (b : button) :
  A <> B -> onclick b = Some B ->
  updateButton (Some A) SStopped b = b.
Proof.
  intros Hne Ho. unfold updateButton, button_is. rewrite Ho.
  destruct (B =? A)%N eqn:E; [apply N.eqb_eq in E; congruence | reflexivity].
Qed.

(** X16.  The handlers that [playAudio(A)] attaches clean up whatever
    session is current when they run, not their own.  If the rejection
    handler of A's [play()] runs after [playAudio(B)] ([A <> B]), then no
    session is current any more and the player is hidden, while B's
    object is still not paused and B's buttons still show "playing";
    [stopAudio] and [togglePlayPause] now do nothing, and a further
    [playAudio(C)] starts a second object beside B's without pausing it. *)
Theorem late_handler_orphans_session (A B C : N) (message : string)
  (pg : page) :
  A <> B ->
  let hB := S (length (audios (player pg))) in
  let pg2 := on_player (playAudio B) (on_player (playAudio A) pg) in
  let p3 := player (playRejected A message pg2) in
  (currentAudio p3 = None /\ currentAnalysisId p3 = None /\
   playerShown p3 = false) /\
  audios p3 !! hB = Some (started_audio B) /\
  (forall b, In b (buttons p3) -> onclick b = Some B -> playing b = true) /\
  (stopAudio p3 = p3 /\ togglePlayPause p3 = p3) /\
  (audios (playAudio C p3) !! hB = Some (started_audio B) /\
   audios (playAudio C p3) !! S hB = Some (started_audio C)).
Proof.
  intros Hne hB pg2 p3.
  set (s := player pg). set (s0 := stopCurrent s).
  set (s1 := playAudio A s). set (s2 := playAudio B s1).
  assert (P3 : p3 = sessionOver A s2) by reflexivity.
  clearbody p3. subst p3. clear pg2.
  assert (Hlen : length (audios s0) = length (audios s))
    by apply AudioPlayerFacts.stopCurrent_length.
  assert (E1 : s1 = _) by apply AudioPlayerFacts.playAudio_unfold.
  cbv zeta in E1. fold s0 in E1.
  assert (C1 : currentAudio s1 = Some (length (audios s0)))
    by (rewrite E1, Hlen; reflexivity).
  assert (A1 : audios s1 = audios s0 ++ [started_audio A])
    by (rewrite E1; reflexivity).
  pose proof (AudioPlayerFacts.playAudio_over_current B s1 _ _ C1 A1) as E2.
  cbv zeta in E2. fold s2 in E2. clearbody s1.
  assert (A2 : audios s2 =
               audios s0 ++ [set_paused true (started_audio A); started_audio B])
    by (rewrite E2; reflexivity).
  assert (B2 : buttons s2 = map (updateButton (Some B) SPlaying) (buttons s1))
    by (rewrite E2; reflexivity).
  clearbody s2.
  assert (HB : hB = S (length (audios s0))) by (rewrite Hlen; reflexivity).
  clearbody hB.
  assert (HlB : audios s2 !! hB = Some (started_audio B)).
  { rewrite A2, lookup_app_r by lia.
    replace (hB - length (audios s0))%nat with 1%nat by lia.
    reflexivity. }
  split; [repeat split|]. split; [exact HlB|]. split; [|split].
  - intros b. cbn [sessionOver forget_id release hideGlobalAudioPlayer
                   updatePlayButtons buttons].
    rewrite B2, map_map, in_map_iff. intros (b0 & <- & _) Ho.
    rewrite !updateButton_onclick in Ho.
    rewrite (sessionOver_keeps_other A B)
      by (rewrite ?updateButton_onclick; assumption).
    apply playing_after_play. exact Ho.
  - split; reflexivity.
  - rewrite AudioPlayerFacts.playAudio_unfold.
    cbn [sessionOver forget_id release hideGlobalAudioPlayer
         updatePlayButtons stopCurrent currentAudio audios].
    assert (L2 : length (audios s2) = S hB)
      by (rewrite A2, length_app; cbn; lia).
    split.
    + rewrite lookup_app_l by lia. exact HlB.
    + rewrite lookup_app_r by lia. rewrite L2, Nat.sub_diag. reflexivity.
Qed.

Lemma late_handler_orphans_session_witness :
  let pg2 := on_player (playAudio 5) (on_player (playAudio 3)
               (fresh_page two_buttons)) in
  let p3 := player (playRejected 3 "interrupted" pg2) in
  currentAudio p3 = None /\
  audios p3 !! 1%nat = Some (started_audio 5) /\
  audios (playAudio 7 p3) !! 2%nat = Some (started_audio 7).
Proof.
  assert (Hne : 3%N <> 5%N) by discriminate.
  pose proof (late_handler_orphans_session 3 5 7 "interrupted"
                (fresh_page two_buttons) Hne) as H.
  cbv zeta in H. destruct H as ((Hc & _) & Hb & _ & _ & (_ & H7)).
  split; [exact Hc|]. split; [exact Hb | exact H7].
Defined.

(** Two calls of [playAudio] in a row, in one piece. *)
Lemma playAudio_twice (A B : N) (s : state) :
  let s0 := stopCurrent s in
  let hA := length (audios s) in
  playAudio B (playAudio A s) =
  {| currentAudio := Some (S hA);
     currentAnalysisId := Some B;
     audios := audios s0 ++ [stopped_audio A; started_audio B];
     buttons := map (now_playing B) (buttons s);
     playerShown := true;
     nowPlaying := Some B;
     log := log s0 ++
       [EUpdateButtons (Some A) SPlaying; ENewAudio hA A; EShowPlayer A;
        EWatchdog hA 10000; EPlay hA; EPause hA;
        EUpdateButtons (Some B) SPlaying; ENewAudio (S hA) B; EShowPlayer B;
        EWatchdog (S hA) 10000; EPlay (S hA)] |}.
Proof.
  intros s0 hA.
  assert (Hlen : length (audios s0) = hA)
    by apply AudioPlayerFacts.stopCurrent_length.
  pose proof (AudioPlayerFacts.playAudio_unfold A s) as E1.
  cbv zeta in E1. fold s0 hA in E1.
  set (s1 := playAudio A s) in *.
  assert (C1 : currentAudio s1 = Some (length (audios s0)))
    by (rewrite E1, Hlen; reflexivity).
  assert (A1 : audios s1 = audios s0 ++ [started_audio A])
    by (rewrite E1; reflexivity).
  rewrite (AudioPlayerFacts.playAudio_over_current B s1 _ _ C1 A1).
  rewrite Hlen, E1. cbn [buttons log]. rewrite <- app_assoc.
  unfold s0. rewrite AudioPlayerFacts.stopCurrent_buttons, map_map.
  f_equal. apply map_ext. intros b. apply AudioPlayerFacts.updateButton_twice.
Qed.

(** C1 (what the page does).  [playAudio(A)] then [playAudio(B)],
    [A <> B], from a state where at most the current object plays.  When
    [playAudio(B)] returns, the object of A is paused and released, A's
    buttons are reset, and B's object is current and the only one
    playing.  But the [play()] of A was still pending when it was paused,
    so it is rejected, and the handler [playAudio(A)] attached to it runs
    afterwards: it resets A's buttons again, hides the player and empties
    both module variables.  B's object goes on playing and B's buttons go
    on showing "playing", with no current session left: no object is
    current although one plays, and neither [stopAudio] nor
    [togglePlayPause] reaches it any more. *)
Theorem playAudio_switch_then_late_rejection (A B : N) (message : string)
  (pg : page) :
  A <> B -> single_active (player pg) ->
  let hA := length (audios (player pg)) in
  let hB := S hA in
  let pg2 := on_player (playAudio B) (on_player (playAudio A) pg) in
  let s2 := player pg2 in
  let pg3 := playRejected A message pg2 in
  let s3 := player pg3 in
  (currentAudio s2 = Some hB /\ currentAnalysisId s2 = Some B /\
   audios s2 !! hA = Some (stopped_audio A) /\
   audios s2 !! hB = Some (started_audio B) /\
   (forall h a, audios s2 !! h = Some a -> paused a = false -> h = hB) /\
   (forall b, In b (buttons s2) -> playing b = true <-> onclick b = Some B) /\
   playerShown s2 = true /\ nowPlaying s2 = Some B) /\
  (currentAudio s3 = None /\ currentAnalysisId s3 = None /\
   playerShown s3 = false /\
   audios s3 = audios s2 /\ buttons s3 = buttons s2 /\
   shown_notes pg3 = shown_notes pg ++
     [Notify ("Error playing audio: " ++ message) NError 3000] /\
   clearedWatchdogs pg3 = clearedWatchdogs pg ++ [A]) /\
  (audios s3 !! hB = Some (started_audio B) /\
   ~ single_active s3 /\
   stopAudio s3 = s3 /\ togglePlayPause s3 = s3).
Proof.
  intros Hne Hs hA hB pg2 s2 pg3 s3.
  set (s := player pg) in *. set (s0 := stopCurrent s).
  assert (E2 : s2 = _) by exact (playAudio_twice A B s).
  cbv zeta in E2. fold s0 hA hB in E2.
  assert (Hlen : length (audios s0) = hA)
    by apply AudioPlayerFacts.stopCurrent_length.
  assert (E3 : s3 = sessionOver A s2) by reflexivity.
  assert (N3 : shown_notes pg3 = shown_notes pg ++
             [Notify ("Error playing audio: " ++ message) NError 3000])
    by reflexivity.
  assert (W3 : clearedWatchdogs pg3 = clearedWatchdogs pg ++ [A])
    by reflexivity.
  clearbody s3 pg3 s2. clear pg2.
  assert (LA : audios s2 !! hA = Some (stopped_audio A)).
  { rewrite E2. cbn [audios]. rewrite lookup_app_r by lia.
    rewrite Hlen, Nat.sub_diag. reflexivity. }
  assert (LB : audios s2 !! hB = Some (started_audio B)).
  { rewrite E2. cbn [audios]. rewrite lookup_app_r by lia.
    rewrite Hlen. replace (hB - hA)%nat with 1%nat by (unfold hB; lia).
    reflexivity. }
  assert (Hb : buttons s2 = map (now_playing B) (buttons s))
    by (rewrite E2; reflexivity).
  assert (B3 : buttons s3 = buttons s2).
  { rewrite E3. cbn [sessionOver forget_id release hideGlobalAudioPlayer
                     updatePlayButtons buttons].
    rewrite Hb, map_map. apply map_ext. intros b.
    unfold now_playing, updateButton, button_is.
    destruct b as [[n|] pl ic ti]; cbn; [|reflexivity].
    destruct (n =? B)%N eqn:EB; cbn.
    - apply N.eqb_eq in EB. subst n.
      destruct (B =? A)%N eqn:EA; [apply N.eqb_eq in EA; congruence|].
      reflexivity.
    - destruct (n =? A)%N; reflexivity. }
  assert (A3 : audios s3 = audios s2) by (rewrite E3; reflexivity).
  assert (C3 : currentAudio s3 = None) by (rewrite E3; reflexivity).
  split; [|split].
  - split; [rewrite E2; reflexivity|]. split; [rewrite E2; reflexivity|].
    split; [exact LA|]. split; [exact LB|]. split; [|split; [|split]].
    + intros h a. rewrite E2. cbn [audios]. intros Hl Hp.
      apply lookup_app_Some in Hl as [Hl|[Hge Hl]].
      * rewrite (AudioPlayerFacts.stopCurrent_all_paused s Hs h a Hl) in Hp.
        discriminate.
      * rewrite Hlen in Hge, Hl.
        destruct (h - hA)%nat as [|[|k]] eqn:Ek.
        -- injection Hl as <-. discriminate.
        -- unfold hB. lia.
        -- discriminate.
    + intros b. rewrite Hb, in_map_iff. intros (b0 & <- & _).
      rewrite AudioPlayerFacts.now_playing_onclick.
      apply AudioPlayerFacts.now_playing_playing.
    + rewrite E2. reflexivity.
    + rewrite E2. reflexivity.
  - split; [exact C3|]. split; [rewrite E3; reflexivity|].
    split; [rewrite E3; reflexivity|]. split; [exact A3|].
    split; [exact B3|]. split; [exact N3 | exact W3].
  - split; [rewrite A3; exact LB|]. split; [|split].
    + intros H. specialize (H hB (started_audio B)).
      rewrite A3, C3 in H. specialize (H LB eq_refl). discriminate.
    + unfold stopAudio. rewrite C3. reflexivity.
    + unfold togglePlayPause. rewrite C3. reflexivity.
Qed.

Lemma playAudio_switch_then_late_rejection_witness :
  let pg2 := on_player (playAudio 5) (on_player (playAudio 3)
               (fresh_page two_buttons)) in
  let s3 := player (playRejected 3 "The play() request was interrupted" pg2) in
  currentAudio (player pg2) = Some 1%nat /\
  currentAudio s3 = None /\ playerShown s3 = false /\
  audios s3 !! 1%nat = Some (started_audio 5) /\
  stopAudio s3 = s3.
Proof.
  assert (Hne : 3%N <> 5%N) by discriminate.
  pose proof (playAudio_switch_then_late_rejection 3 5
                "The play() request was interrupted"
                (fresh_page two_buttons) Hne
                (AudioPlayerFacts.single_active_init two_buttons)) as H.
  cbv zeta in H.
  destruct H as ((H2 & _) & (Hc & _ & Hp & _) & (Hl & _ & Hst & _)).
  split; [exact H2|]. split; [exact Hc|]. split; [exact Hp|].
  split; [exact Hl | exact Hst].
Defined.

Local Open Scope Q_scope.

(** The numbers are those of the script: seeking to 7 percent of 200
    seconds puts the position at the binary64 product
    14.000000000000002, and [updateAudioProgress] then sets the bar to
    7.000000000000001. *)
Example progress_after_seek :
  position (seekAudio 7 loaded_session) =
    Some (7881299347898369 # 562949953421312) /\
  updateAudioProgress (seekAudio 7 loaded_session) =
    Some {| bar_value := Some (7881299347898369 # 1125899906842624);
            fill_width := Some (7881299347898369 # 1125899906842624);
            current_text := "0:14"; total_text := "3:20" |}.
Proof. split; vm_compute; reflexivity. Qed.

Lemma Qfloor_unique (x : Q) (z : Z) :
  inject_Z z <= x -> x < inject_Z (z + 1) -> Qfloor x = z.
Proof.
  intros H1 H2.
  assert (A : (z <= Qfloor x)%Z).
  { rewrite <- (Qfloor_Z z). apply Qfloor_resp_le, H1. }
  assert (B : (Qfloor x < z + 1)%Z).
  { rewrite Zlt_Qlt. eapply Qle_lt_trans; [apply Qfloor_le | exact H2]. }
  lia.
Qed.

(** Whole minutes and left-over seconds of a non-negative time. *)
Lemma minutes_and_seconds (s : Q) :
  0 <= s ->
  Qfloor (s / 60) = (Qfloor s / 60)%Z /\
  Qfloor (rem60 s) = (Qfloor s mod 60)%Z.
Proof.
  intros Hs. set (t := Qfloor s).
  pose proof (Qfloor_le s) as L. pose proof (Qlt_floor s) as U. fold t in L, U.
  pose proof (Z.div_mod t 60 ltac:(lia)) as E.
  pose proof (Z.mod_pos_bound t 60 ltac:(lia)) as B.
  set (q := (t / 60)%Z) in *. set (r := (t mod 60)%Z) in *.
  assert (Et : inject_Z t == 60 * inject_Z q + inject_Z r).
  { rewrite E, inject_Z_plus, inject_Z_mult. reflexivity. }
  assert (R0 : 0 <= inject_Z r)
    by (change 0 with (inject_Z 0); rewrite <- Zle_Qle; lia).
  assert (R1 : inject_Z r <= 59)
    by (change 59 with (inject_Z 59); rewrite <- Zle_Qle; lia).
  rewrite inject_Z_plus in U. change (inject_Z 1) with 1 in U.
  assert (F : Qfloor (s / 60) = q).
  { apply Qfloor_unique.
    - apply Qle_shift_div_l; [reflexivity|]. lra.
    - rewrite inject_Z_plus. change (inject_Z 1) with 1.
      apply Qlt_shift_div_r; [reflexivity|]. lra. }
  split; [exact F|].
  unfold rem60, Qtrunc.
  assert (P : Qle_bool 0 (s / 60) = true).
  { apply Qle_bool_iff. apply Qle_shift_div_l; [reflexivity|]. lra. }
  rewrite P, F. apply Qfloor_unique.
  - lra.
  - rewrite inject_Z_plus. change (inject_Z 1) with 1. lra.
Qed.

Lemma padStart2_two_digits (k : nat) :
  (k < 60)%nat ->
  padStart2 (Js.toString (N.of_nat k)) = two_digits (N.of_nat k).
Proof.
  intros H. do 60 (destruct k as [|k]; [reflexivity|]). lia.
Qed.

(** X18.  [formatTime] of a non-negative number of seconds shows the
    whole minutes, a colon, and the left-over whole seconds as exactly two
    digits: with [t] the seconds rounded down, the text is
    [t / 60] ":" [t mod 60], the latter zero-padded.  A [NaN] or infinite
    argument shows as "0:00". *)
Theorem formatTime_minutes_seconds (s : Q) :
  0 <= s ->
  let t := Z.to_N (Qfloor s) in
  formatTime (Some s) =
    (Js.toString (t / 60) ++ ":" ++ two_digits (t mod 60))%string /\
  (t mod 60 < 60)%N /\
  formatTime None = "0:00"%string.
Proof.
  intros Hs t. destruct (minutes_and_seconds s Hs) as [Hm Hr].
  assert (T0 : (0 <= Qfloor s)%Z).
  { rewrite <- (Qfloor_Z 0). apply Qfloor_resp_le, Hs. }
  pose proof (Z.mod_pos_bound (Qfloor s) 60 ltac:(lia)) as B.
  pose proof (Z.div_pos (Qfloor s) 60 T0 ltac:(lia)) as D.
  split; [|split; [apply N.mod_lt; discriminate | reflexivity]].
  unfold formatTime. rewrite Hm, Hr. unfold toStringZ.
  replace (Qfloor s / 60 <? 0)%Z with false by (symmetry; apply Z.ltb_ge; lia).
  replace (Qfloor s mod 60 <? 0)%Z with false by (symmetry; apply Z.ltb_ge; lia).
  assert (Eq : Z.to_N (Qfloor s / 60) = (t / 60)%N).
  { unfold t. rewrite Z2N.inj_div by lia. reflexivity. }
  assert (Er : Z.to_N (Qfloor s mod 60) = (t mod 60)%N).
  { unfold t. rewrite Z2N.inj_mod by lia. reflexivity. }
  rewrite Eq, Er.
  assert (Hk : (t mod 60 < 60)%N) by (apply N.mod_lt; discriminate).
  rewrite <- (N2Nat.id (t mod 60)).
  rewrite padStart2_two_digits by lia. reflexivity.
Qed.

Lemma formatTime_minutes_seconds_witness :
  formatTime (Some (1257 # 10)) = "2:05"%string.
Proof.
  assert (H : 0 <= 1257 # 10) by discriminate.
  destruct (formatTime_minutes_seconds (1257 # 10) H) as (E & _).
  rewrite E. reflexivity.
Defined.

End PlayerPageFacts.

(** ** Settings form and localStorage *)

Module SettingsFacts.

Import Settings.

Lemma getItem_filter (P : string -> bool) (key : string) (st : storage) :
  getItem key (List.filter (fun kv => P (fst kv)) st) =
  if P key then getItem key st else None.
Proof.
  induction st as [|[k v] st IH]; cbn; [destruct (P key); reflexivity|].
  destruct (P k) eqn:Ek; cbn; destruct (String.eqb k key) eqn:E.
  - apply String.eqb_eq in E. subst. rewrite Ek. reflexivity.
  - exact IH.
  - apply String.eqb_eq in E. subst. rewrite Ek in IH. rewrite Ek. exact IH.
  - exact IH.
Qed.

Lemma sweep_spec (ks : list string) (st : storage) (key : string) :
  getItem key
    (fold_left (fun acc k => if cached k then removeItem k acc else acc) ks st) =
  if cached key && existsb (String.eqb key) ks then None else getItem key st.
Proof.
  revert st; induction ks as [|k ks IH]; intros st; cbn.
  - rewrite andb_false_r. reflexivity.
  - rewrite IH. destruct (cached key) eqn:Ec; cbn [andb].
    + destruct (existsb (String.eqb key) ks); [rewrite orb_true_r; reflexivity|].
      rewrite orb_false_r. destruct (String.eqb key k) eqn:E.
      * apply String.eqb_eq in E. subst k. rewrite Ec. unfold removeItem.
        rewrite (getItem_filter (fun x => negb (String.eqb x key))).
        rewrite String.eqb_refl. reflexivity.
      * destruct (cached k); [|reflexivity]. unfold removeItem.
        rewrite (getItem_filter (fun x => negb (String.eqb x k))).
        rewrite E. reflexivity.
    + destruct (cached k) eqn:Ek; [|reflexivity]. unfold removeItem.
      rewrite (getItem_filter (fun x => negb (String.eqb x k))).
      destruct (String.eqb key k) eqn:E; [|reflexivity].
      apply String.eqb_eq in E. subst k. congruence.
Qed.

Lemma getItem_in_keys (key : string) (st : storage) :
  existsb (String.eqb key) (keys st) = false -> getItem key st = None.
Proof.
  induction st as [|[k v] st IH]; cbn; [reflexivity|].
  rewrite orb_false_iff. intros [E H]. rewrite String.eqb_sym, E. apply IH, H.
Qed.

(** X19.  [clearCache], once confirmed, removes from localStorage exactly
    the entries whose key starts with "musicPolice_" and shows one success
    notification; every other entry keeps its value, among them the
    settings saved under "musicPoliceSettings".  Declined, it changes
    nothing. *)
Theorem clearCache_removes_prefixed (st : storage)
  (notes : list notification) :
  (forall key,
     getItem key (fst (clearCache true st notes)) =
     if Js.startsWith key "musicPolice_" then None else getItem key st) /\
  getItem "musicPoliceSettings" (fst (clearCache true st notes)) =
    getItem "musicPoliceSettings" st /\
  snd (clearCache true st notes) =
    notes ++ [Notify "Cache cleared successfully!" NSuccess 3000] /\
  clearCache false st notes = (st, notes).
Proof.
  assert (K : forall key,
             getItem key (fst (clearCache true st notes)) =
             if cached key then None else getItem key st).
  { intros key. cbn [clearCache fst]. rewrite sweep_spec.
    destruct (cached key); cbn [andb]; [|reflexivity].
    destruct (existsb (String.eqb key) (keys st)) eqn:E; [reflexivity|].
    apply getItem_in_keys, E. }
  split; [exact K|]. split; [apply (K "musicPoliceSettings"%string)|].
  split; reflexivity.
Qed.

Lemma getItem_setItem (key : string) (v : jsobject) (st : storage) :
  getItem key (setItem key v st) = Some v.
Proof.
  unfold setItem. destruct (getItem key st) eqn:E.
  - induction st as [|[k w] st IH]; cbn in *; [discriminate|].
    destruct (String.eqb k key) eqn:Ek; cbn.
    + rewrite String.eqb_refl. reflexivity.
    + rewrite Ek. apply IH, E.
  - induction st as [|[k w] st IH]; cbn in *.
    + rewrite String.eqb_refl. reflexivity.
    + destruct (String.eqb k key); [discriminate | apply IH, E].
Qed.

Lemma applyKey_absent (settings : jsobject) (f : form) (dbKey id : string) :
  prop dbKey settings = None -> applyKey settings f (dbKey, id) = f.
Proof. intros H. unfold applyKey. rewrite H. destruct (f id); reflexivity. Qed.

(** The object built from the form has none of the database keys. *)
Lemma readSettings_no_db_key (f : form) (settings : jsobject) :
  readSettings f = Some settings ->
  Forall (fun m => prop (fst m) settings = None) keyMappings.
Proof.
  unfold readSettings.
  destruct (f "default-priority"), (f "auto-delete"),
    (f "email-notifications"), (f "rate-limit"), (f "max-file-size"),
    (f "api-logging"), (f "require-auth"), (f "encrypt-files"),
    (f "session-timeout"); try discriminate.
  intros [= <-]. repeat constructor.
Qed.

Lemma updateSettingsUI_absent (settings : jsobject) (f : form) :
  Forall (fun m => prop (fst m) settings = None) keyMappings ->
  updateSettingsUI settings f = f.
Proof.
  unfold updateSettingsUI. generalize keyMappings. intros l H. revert f.
  induction H as [|[dbKey id] l Hm _ IH]; intros f; cbn [fold_left];
    [reflexivity|].
  rewrite applyKey_absent by exact Hm. apply IH.
Qed.

(** X20.  Settings saved to localStorage are never read back into the
    form.  When the POST fails, [saveSettings] stores the object it built
    from the form under "musicPoliceSettings"; but that object is keyed by
    element ids, while [updateSettingsUI] looks up database keys, so
    [loadSettingsData] falling back to the stored object leaves every
    control of any page as it is. *)
Theorem local_settings_never_restored (r : saved) (b : browser)
  (settings : jsobject) :
  r <> SaveOk -> readSettings (controls b) = Some settings ->
  let b1 := saveSettings r b in
  getItem "musicPoliceSettings" (local b1) = Some settings /\
  (forall b2 : browser, local b2 = local b1 ->
     loadSettingsData FetchFailed b2 = b2).
Proof.
  intros Hr Hs b1.
  assert (E : getItem "musicPoliceSettings" (local b1) = Some settings).
  { unfold b1, saveSettings. rewrite Hs.
    destruct r; [congruence | | ]; apply getItem_setItem. }
  split; [exact E|]. intros [c l sh] Hl. cbn [local] in Hl. subst l.
  unfold loadSettingsData. cbn [local controls shown]. rewrite E.
  rewrite updateSettingsUI_absent by (eapply readSettings_no_db_key, Hs).
  reflexivity.
Qed.

Lemma local_settings_never_restored_witness :
  let b := {| controls := default_form; local := []; shown := [] |} in
  let b1 := saveSettings SaveThrew b in
  getItem "musicPoliceSettings" (local b1) =
    readSettings default_form /\
  loadSettingsData FetchFailed b1 = b1.
Proof.
  intros b b1.
  assert (Hr : SaveThrew <> SaveOk) by discriminate.
  destruct (readSettings default_form) as [settings|] eqn:Hs;
    [|discriminate].
  destruct (local_settings_never_restored SaveThrew b settings Hr Hs)
    as [Hg Hl].
  split; [exact Hg | apply Hl; reflexivity].
Defined.

(** The form does take values that come under the database keys. *)
Example updateSettingsUI_database_keys :
  updateSettingsUI
    [("auto_delete_days", VNum 30); ("api_logging", VBool false)]
    default_form "auto-delete" = Some (Control false "30" false) /\
  updateSettingsUI
    [("auto_delete_days", VNum 30); ("api_logging", VBool false)]
    default_form "api-logging" = Some (Control true "on" false) /\
  updateSettingsUI [("auto-delete", VStr "30")] default_form "auto-delete" =
    Some (Control false "7" false).
Proof. repeat split. Qed.

End SettingsFacts.

(** ** Table rows and their play buttons *)

Module RowsFacts.

Import AudioPlayer Rows.

Lemma takeDigits_digits (ds rest : string) :
  Forall (fun c => Js.is_digit c = true) (Js.chars ds) ->
  Js.startsWith rest ")" = true ->
  takeDigits (ds ++ rest) = (ds, rest).
Proof.
  intros Hd Hr. induction ds as [|c ds IH]; cbn.
  - destruct rest as [|c rest]; [discriminate|]. cbn in Hr.
    apply andb_true_iff in Hr as [Hc _]. apply Ascii.eqb_eq in Hc. subst c.
    reflexivity.
  - cbn in Hd. inversion Hd as [|? ? Hc Hds]; subst.
    rewrite Hc, (IH Hds). reflexivity.
Qed.

Lemma toString_nonempty (n : N) : Js.truthy (Js.toString n) = true.
Proof.
  destruct (Js.toString n) eqn:E; [|reflexivity]. exfalso.
  unfold Js.toString in E.
  pose proof (NilEmpty.usu (N.to_uint n)) as U. rewrite E in U. cbn in U.
  injection U as U. pose proof (Unsigned.of_to n) as O. rewrite <- U in O.
  cbn in O. subst n. discriminate.
Qed.

Lemma parseInt_toString (n : N) : parseInt (Js.toString n) = n.
Proof.
  unfold parseInt, Js.toString. rewrite NilEmpty.usu. apply Unsigned.of_to.
Qed.

Lemma regexMatch_onclickAttr (id : N) :
  regexMatch (onclickAttr id) = Some (Js.toString id).
Proof.
  unfold onclickAttr.
  assert (M : matchHere ("playAudio(" ++ Js.toString id ++ ")")
              = Some (Js.toString id)).
  { unfold matchHere.
    assert (S1 : Js.startsWith ("playAudio(" ++ Js.toString id ++ ")")
                   "playAudio(" = true)
      by (apply JsFacts.startsWith_spec; eexists; reflexivity).
    rewrite S1.
    change (drop 10 ("playAudio(" ++ Js.toString id ++ ")"))
      with (Js.toString id ++ ")")%string.
    rewrite (takeDigits_digits (Js.toString id) ")")
      by (try apply JsFacts.toString_digits; reflexivity).
    rewrite toString_nonempty. reflexivity. }
  set (s := ("playAudio(" ++ Js.toString id ++ ")")%string) in *.
  destruct s; cbn [regexMatch]; rewrite M; reflexivity.
Qed.

Lemma parseOnclick_onclickAttr (id : N) :
  parseOnclick (onclickAttr id) = Some id.
Proof.
  unfold parseOnclick. rewrite regexMatch_onclickAttr, parseInt_toString.
  reflexivity.
Qed.

(** X21.  The id written into a row's play button is the id read back
    from it, for every id that is a safe integer (below [2 ^ 53], as
    database keys are): in the attribute [playAudio(<id>)] the pattern of
    [updatePlayButtons] captures the decimal digits of [id], [parseInt]
    turns them back into [id], and so the button is recognised as the
    button of [id]. *)
Theorem onclick_round_trip (id : N) :
  safe_integer id ->
  regexMatch (onclickAttr id) = Some (Js.toString id) /\
  parseInt (Js.toString id) = id /\
  parseOnclick (onclickAttr id) = Some id.
Proof.
  intros _. split; [apply regexMatch_onclickAttr|].
  split; [apply parseInt_toString | apply parseOnclick_onclickAttr].
Qed.

Lemma onclick_round_trip_witness :
  regexMatch (onclickAttr 9007199254740991) = Some "9007199254740991" /\
  parseOnclick (onclickAttr 9007199254740991) = Some 9007199254740991%N.
Proof.
  assert (H : safe_integer 9007199254740991) by reflexivity.
  destruct (onclick_round_trip 9007199254740991 H) as (Hm & _ & Hp).
  split; [exact Hm | exact Hp].
Defined.

Lemma buttonsOf_onclick (l : list record) :
  buttonsOf l =
  map (fun a => Button (Some (rid a)) false FaPlay "Play audio") l.
Proof.
  unfold buttonsOf. apply map_ext. intros a.
  unfold createAnalysisRow. cbn [play_button].
  rewrite parseOnclick_onclickAttr. reflexivity.
Qed.

(** X22.  Rows and player fit together: with the table showing the rows
    of [l], all of whose ids are safe integers, [playAudio(i)] marks as
    playing exactly the buttons of the rows whose id is [i] and leaves
    every other button idle. *)
Theorem playAudio_marks_its_row (l : list record) (i : N) :
  Forall (fun a => safe_integer (rid a)) l -> safe_integer i ->
  buttons (playAudio i (init (buttonsOf l))) =
  map (fun a =>
         if (rid a =? i)%N
         then Button (Some (rid a)) true FaPause "Pause audio"
         else Button (Some (rid a)) false FaPlay "Play audio") l.
Proof.
  intros _ _. rewrite AudioPlayerFacts.playAudio_unfold. cbn.
  rewrite buttonsOf_onclick, map_map. apply map_ext. intros a.
  unfold updateButton, button_is. cbn. destruct (rid a =? i)%N; reflexivity.
Qed.

Lemma playAudio_marks_its_row_witness :
  buttons (playAudio 5 (init (buttonsOf sample_records))) =
  [Button (Some 3%N) false FaPlay "Play audio";
   Button (Some 5%N) true FaPause "Pause audio";
   Button (Some 12%N) false FaPlay "Play audio"].
Proof.
  assert (Hl : Forall (fun a => safe_integer (rid a)) sample_records)
    by (repeat constructor).
  assert (Hi : safe_integer 5) by reflexivity.
  exact (playAudio_marks_its_row sample_records 5 Hl Hi).
Defined.



End RowsFacts.
